(** * Endless runner: the simulation core of [GameCanvas.tsx]

    A shallow embedding of the game state kept in [stateRef], of the
    update half of the animation callback [loop], of the keyboard handler
    [handleKeyDown] and of [resetGame], followed by the properties of the
    pursuit meter, of collisions, of spawning and of the run phases.

    Numbers.  The source computes on JavaScript numbers.  Every literal of
    the update code is a multiple of 0.005 and the update only adds,
    subtracts and compares, so a number [x] is represented exactly by the
    integer [1000 * x] (type [num]).  Literals are written in decimal
    through the notation [num:( 0.2 )].  Fields that only ever hold
    integers (lanes, score, coins, stumbleCooldown) are plain integers.
    Rounding of binary floating point is outside this model: the program's
    sums of 0.2, 0.005, 0.6 and of speeds are rounded, so the bounds stated
    on such sums leave room for it (100.2 for the meter, 149 between coins
    spawned 150 apart, a landing by the 52nd frame of a jump).

    Not modelled: the canvas, the drawing half of [loop] and the
    [particles] array, which is filled with random values of its own when
    a coin is collected and which nothing else in the update code reads. *)

From Stdlib Require Import ZArith List Bool String QArith Lia Lqa Sorted.
Import ListNotations.
Local Open Scope Z_scope.

(** ** Numbers *)

Definition num := Z.

Definition of_decimal (q : Q) : num := (Qnum q * 1000) / Zpos (Qden q).

(** The remainder of that division: 0 for a literal of at most three
    decimals. *)
Definition decimal_rest (q : Q) : Z := (Qnum q * 1000) mod Zpos (Qden q).

(** [num:( q )] is the representation of the decimal literal [q]; a literal
    with more than three decimals is refused. *)
Notation "'num:(' q ')'" :=
  (ltac:(let r := eval cbv in (decimal_rest q%Q) in
         lazymatch r with
         | 0 => let v := eval cbv in (of_decimal q%Q) in exact v
         end))
  (only parsing).

(** [Math.floor(x / k)] for an integer literal [k]. *)
Definition floor_div (x : num) (k : Z) : Z := x / (1000 * k).

(** [Math.floor(x * k)] for an integer literal [k]. *)
Definition floor_mul (x : num) (k : Z) : Z := (x * k) / 1000.

(** ** Game constants *)

Definition LANE_COUNT : Z := 3.
Definition GRAVITY : num := num:(0.6).
Definition JUMP_FORCE : num := num:(-15).
Definition SPEED_INITIAL : num := num:(12).
Definition SPEED_INCREMENT : num := num:(0.005).

(** ** Data model *)

Inductive GameState := start | playing | gameover.

Record Player := mkPlayer {
  lane : Z;
  y : num;
  vy : num;
  isJumping : bool;
  stumbleCooldown : Z
}.

Inductive ObstacleType := barrier | train.

Record Obstacle := mkObstacle {
  o_lane : Z;
  o_z : num;
  o_type : ObstacleType;
  passed : bool
}.

Record Coin := mkCoin {
  c_lane : Z;
  c_z : num;
  active : bool;
  angle : num
}.

(** The object held by [stateRef.current]. *)
Record State := mkState {
  speed : num;
  distance : num;
  score : Z;
  coins : Z;
  player : Player;
  policeDistance : num;
  obstacles : list Obstacle;
  items : list Coin;
  lastSpawnZ : num;
  gameOver : bool
}.

(** The component: the React state [gameState], [score], [coins] and the
    mutable game state. *)
Record World := mkWorld {
  gameState : GameState;
  hudScore : Z;
  hudCoins : Z;
  st : State
}.

(** The two values [Math.random()] returns when an obstacle is spawned: the
    first chooses the lane, the second the type.  They are taken to the
    thousandth, which reaches every lane and both types. *)
Record Rand := mkRand {
  rndLane : num;
  rndType : num
}.

(** [Math.random()] returns a number in [0, 1). *)
Definition rand_ok (r : Rand) : bool :=
  (0 <=? rndLane r) && (rndLane r <? num:(1)) &&
  (0 <=? rndType r) && (rndType r <? num:(1)).

Definition is_barrier (t : ObstacleType) : bool :=
  match t with barrier => true | train => false end.

(** ** Field updates *)

Definition set_lane (p : Player) (l : Z) : Player :=
  mkPlayer l (y p) (vy p) (isJumping p) (stumbleCooldown p).

Definition set_stumbleCooldown (p : Player) (n : Z) : Player :=
  mkPlayer (lane p) (y p) (vy p) (isJumping p) n.

Definition set_passed (o : Obstacle) (b : bool) : Obstacle :=
  mkObstacle (o_lane o) (o_z o) (o_type o) b.

Definition set_active (c : Coin) (b : bool) : Coin :=
  mkCoin (c_lane c) (c_z c) b (angle c).

Definition set_player (s : State) (p : Player) : State :=
  mkState (speed s) (distance s) (score s) (coins s) p (policeDistance s)
          (obstacles s) (items s) (lastSpawnZ s) (gameOver s).

Definition set_policeDistance (s : State) (d : num) : State :=
  mkState (speed s) (distance s) (score s) (coins s) (player s) d
          (obstacles s) (items s) (lastSpawnZ s) (gameOver s).

Definition set_coins (s : State) (n : Z) : State :=
  mkState (speed s) (distance s) (score s) n (player s) (policeDistance s)
          (obstacles s) (items s) (lastSpawnZ s) (gameOver s).

Definition set_obstacles (s : State) (os : list Obstacle) : State :=
  mkState (speed s) (distance s) (score s) (coins s) (player s)
          (policeDistance s) os (items s) (lastSpawnZ s) (gameOver s).

Definition set_items (s : State) (cs : list Coin) : State :=
  mkState (speed s) (distance s) (score s) (coins s) (player s)
          (policeDistance s) (obstacles s) cs (lastSpawnZ s) (gameOver s).

Definition set_gameOver (s : State) (b : bool) : State :=
  mkState (speed s) (distance s) (score s) (coins s) (player s)
          (policeDistance s) (obstacles s) (items s) (lastSpawnZ s) b.

(** ** [resetGame] *)

Definition initialPlayer : Player :=
  mkPlayer 1 0 0 false 0.

Definition initialState : State :=
  mkState SPEED_INITIAL 0 0 0 initialPlayer num:(100) [] [] 0 false.

(** [resetGame] replaces the game state and calls [setScore(0)] and
    [setCoins(0)]. *)
Definition resetGame (w : World) : World :=
  mkWorld (gameState w) 0 0 initialState.

(** The component as mounted: [gameState] is ['start']. *)
Definition initialWorld : World :=
  mkWorld start 0 0 initialState.

(** ** [handleKeyDown] *)

Definition key_in (key : string) (ks : list string) : bool :=
  existsb (String.eqb key) ks.

Definition handleKeyDown (key : string) (w : World) : World :=
  match gameState w with
  | playing =>
      let s := st w in
      let p := player s in
      if key_in key ["ArrowLeft"; "a"]%string then
        if 0 <? lane p
        then mkWorld (gameState w) (hudScore w) (hudCoins w)
                     (set_player s (set_lane p (lane p - 1)))
        else w
      else if key_in key ["ArrowRight"; "d"]%string then
        if lane p <? LANE_COUNT - 1
        then mkWorld (gameState w) (hudScore w) (hudCoins w)
                     (set_player s (set_lane p (lane p + 1)))
        else w
      else if key_in key ["ArrowUp"; "w"; " "]%string then
        if negb (isJumping p)
        then mkWorld (gameState w) (hudScore w) (hudCoins w)
                     (set_player s
                        (mkPlayer (lane p) (y p) JUMP_FORCE true
                                  (stumbleCooldown p)))
        else w
      else w
  | _ => w
  end.

(** ** The update half of [loop], block by block *)

(** [s.speed += SPEED_INCREMENT; s.distance += s.speed;
    s.score = Math.floor(s.distance / 10)]. *)
Definition updateSpeed (s : State) : State :=
  let speed' := speed s + SPEED_INCREMENT in
  let distance' := distance s + speed' in
  mkState speed' distance' (floor_div distance' 10) (coins s) (player s)
          (policeDistance s) (obstacles s) (items s) (lastSpawnZ s)
          (gameOver s).

(** Player Physics. *)
Definition playerPhysics (p : Player) : Player :=
  if isJumping p then
    let y' := y p + vy p in
    let vy' := vy p + GRAVITY in
    if 0 <=? y'
    then mkPlayer (lane p) 0 vy' false (stumbleCooldown p)
    else mkPlayer (lane p) y' vy' true (stumbleCooldown p)
  else p.

(** Police Catchup Logic, first statement:
    [if (s.policeDistance < 100) s.policeDistance += 0.2]. *)
Definition policeRecover (s : State) : State :=
  if policeDistance s <? num:(100)
  then set_policeDistance s (policeDistance s + num:(0.2))
  else s.

(** Police Catchup Logic, second statement: the test
    [s.policeDistance <= 0] that guards [s.gameOver = true] and
    [setGameState('gameover')]. *)
Definition caught (s : State) : bool := policeDistance s <=? 0.

Definition policeCheck (s : State) : State :=
  if caught s then set_gameOver s true else s.

(** Spawning. *)
Definition spawnDue (s : State) : bool :=
  num:(800) <? distance s - lastSpawnZ s.

Definition spawnLane (rnd : Rand) : Z := floor_mul (rndLane rnd) 3.

Definition spawnType (rnd : Rand) : ObstacleType :=
  if num:(0.7) <? rndType rnd then train else barrier.

Definition spawnCoinLane (rnd : Rand) : Z := Z.rem (spawnLane rnd + 1) 3.

Definition spawning (rnd : Rand) (s : State) : State :=
  if spawnDue s then
    let l := spawnLane rnd in
    let coinLane := spawnCoinLane rnd in
    mkState (speed s) (distance s) (score s) (coins s) (player s)
            (policeDistance s)
            (obstacles s ++ [mkObstacle l num:(2000) (spawnType rnd) false])
            (items s ++ [mkCoin coinLane num:(2000) true 0;
                         mkCoin coinLane num:(2150) true 0;
                         mkCoin coinLane num:(2300) true 0])
            (distance s) (gameOver s)
  else s.

(** Update Objects. *)
Definition moveObstacle (v : num) (o : Obstacle) : Obstacle :=
  mkObstacle (o_lane o) (o_z o - v) (o_type o) (passed o).

Definition moveCoin (v : num) (c : Coin) : Coin :=
  mkCoin (c_lane c) (c_z c - v) (active c) (angle c + num:(0.1)).

Definition updateObjects (s : State) : State :=
  set_items
    (set_obstacles s (map (moveObstacle (speed s)) (obstacles s)))
    (map (moveCoin (speed s)) (items s)).

(** Cleanup off-screen. *)
Definition cleanup (s : State) : State :=
  set_items
    (set_obstacles s (filter (fun o => num:(-200) <? o_z o) (obstacles s)))
    (filter (fun i => num:(-200) <? c_z i) (items s)).

(** Collision Detection, obstacles.  The body of the CRASH branch, without
    [o.passed = true]. *)
Definition crash (s : State) : State :=
  let s1 := set_policeDistance s (policeDistance s - num:(40)) in
  set_player s1 (set_stumbleCooldown (player s1) 20).

(** The depth test of the obstacle loop: [o.z < 250 && o.z > 50]. *)
Definition nearPlayer (z : num) : bool := (z <? num:(250)) && (num:(50) <? z).

(** The callback of [s.obstacles.forEach]: the obstacle after the call and
    the game state after the call. *)
Definition collideObstacle (o : Obstacle) (s : State) : Obstacle * State :=
  if negb (passed o) && nearPlayer (o_z o) then
    if o_lane o =? lane (player s) then
      if (y (player s) <? num:(-50)) && is_barrier (o_type o)
      then (o, s)
      else (set_passed o true, crash s)
    else (o, s)
  else (o, s).

Fixpoint collideObstacles (os : list Obstacle) (s : State)
  : list Obstacle * State :=
  match os with
  | [] => ([], s)
  | o :: rest =>
      let (o', s1) := collideObstacle o s in
      let (rest', s2) := collideObstacles rest s1 in
      (o' :: rest', s2)
  end.

Definition collisionObstacles (s : State) : State :=
  let (os, s') := collideObstacles (obstacles s) s in
  set_obstacles s' os.

(** Collision Detection, coins.  The depth test of the coin loop:
    [c.z < 150 && c.z > 50]. *)
Definition nearCoin (z : num) : bool := (z <? num:(150)) && (num:(50) <? z).

(** The body of the collecting branch, without [c.active = false]. *)
Definition addCoin (s : State) : State := set_coins s (coins s + 1).

(** The callback of [s.items.forEach]. *)
Definition collectItem (c : Coin) (s : State) : Coin * State :=
  if active c && nearCoin (c_z c) && (c_lane c =? lane (player s)) then
    if num:(-100) <? y (player s)
    then (set_active c false, addCoin s)
    else (c, s)
  else (c, s).

Fixpoint collectItems (cs : list Coin) (s : State) : list Coin * State :=
  match cs with
  | [] => ([], s)
  | c :: rest =>
      let (c', s1) := collectItem c s in
      let (rest', s2) := collectItems rest s1 in
      (c' :: rest', s2)
  end.

Definition collisionItems (s : State) : State :=
  let (cs, s') := collectItems (items s) s in
  set_items s' cs.

(** The statements of the [if (gameState === 'playing')] block after
    [setScore] and [setCoins]. *)
Definition afterCheck (rnd : Rand) (s : State) : State :=
  collisionItems
    (collisionObstacles
       (cleanup (updateObjects (spawning rnd s)))).

Definition beforeCheck (s : State) : State :=
  policeRecover (set_player (updateSpeed s)
                            (playerPhysics (player (updateSpeed s)))).

(** The whole block on the game state. *)
Definition update (rnd : Rand) (s : State) : State :=
  afterCheck rnd (policeCheck (beforeCheck s)).

(** ** [loop], one animation frame *)

Definition loop (rnd : Rand) (w : World) : World :=
  if gameOver (st w) then w
  else
    match gameState w with
    | playing =>
        let s1 := updateSpeed (st w) in
        mkWorld (if caught (beforeCheck (st w)) then gameover else playing)
                (score s1) (coins s1)
                (update rnd (st w))
    | _ => w
    end.

(** ** Events of the component *)

Inductive Event :=
| Frame (rnd : Rand)        (* the browser calls [loop] *)
| KeyDown (key : string)    (* a keydown event *)
| TapToStart                (* the button of the start screen *)
| PlayAgain.                (* the button of the game-over overlay *)

(** [TapToStart] is [setGameState('playing')]; the button exists on the
    start screen only.  [PlayAgain] is [setGameState('start')]; the button
    exists on the game-over overlay only, and the effect that then runs
    calls [resetGame]. *)
Definition step (e : Event) (w : World) : World :=
  match e with
  | Frame rnd => loop rnd w
  | KeyDown key => handleKeyDown key w
  | TapToStart =>
      match gameState w with
      | start => mkWorld playing (hudScore w) (hudCoins w) (st w)
      | _ => w
      end
  | PlayAgain =>
      match gameState w with
      | gameover => resetGame (mkWorld start (hudScore w) (hudCoins w) (st w))
      | _ => w
      end
  end.

Fixpoint run (evs : list Event) (w : World) : World :=
  match evs with
  | [] => w
  | e :: rest => run rest (step e w)
  end.

Definition event_ok (e : Event) : bool :=
  match e with
  | Frame rnd => rand_ok rnd
  | _ => true
  end.

Definition events_ok (evs : list Event) : bool := forallb event_ok evs.

(** ** Derived notions used in the statements *)

(** The callback of the obstacle loop reaches its CRASH branch for [o]
    when the player is in lane [l] at height [py]. *)
Definition hits (l : Z) (py : num) (o : Obstacle) : bool :=
  negb (passed o) && nearPlayer (o_z o) && (o_lane o =? l) &&
  negb ((py <? num:(-50)) && is_barrier (o_type o)).

(** The callback of the coin loop collects [c]. *)
Definition collects (l : Z) (py : num) (c : Coin) : bool :=
  active c && nearCoin (c_z c) && (c_lane c =? l) && (num:(-100) <? py).

Definition count {A : Type} (f : A -> bool) (l : list A) : Z :=
  Z.of_nat (List.length (filter f l)).

(** The game state the collision loops run on during a tick. *)
Definition beforeCollision (rnd : Rand) (s : State) : State :=
  cleanup (updateObjects (spawning rnd (policeCheck (beforeCheck s)))).

(** The integration order of the specification text: velocity first, then
    the position from the velocity just updated; same landing rule. *)
Definition playerPhysics_spec (p : Player) : Player :=
  if isJumping p then
    let vy' := vy p + GRAVITY in
    let y' := y p + vy' in
    if 0 <=? y'
    then mkPlayer (lane p) 0 vy' false (stumbleCooldown p)
    else mkPlayer (lane p) y' vy' true (stumbleCooldown p)
  else p.

Definition is_restart (e : Event) : bool :=
  match e with PlayAgain => true | _ => false end.

Definition no_restart (evs : list Event) : bool :=
  forallb (fun e => negb (is_restart e)) evs.

(** Lanes lie in [0, LANE_COUNT - 1]. *)
Definition lane_ok (l : Z) : Prop := 0 <= l <= LANE_COUNT - 1.

Definition lanes_ok (s : State) : Prop :=
  lane_ok (lane (player s)) /\
  Forall (fun o => lane_ok (o_lane o)) (obstacles s) /\
  Forall (fun c => lane_ok (c_lane c)) (items s).

(** The pursuit meter is at most 100 and a multiple of 0.2. *)
Definition meter_inv (s : State) : Prop :=
  policeDistance s <= num:(100) /\
  exists k : Z, policeDistance s = num:(0.2) * k.

(** Obstacles are kept in the order they were spawned in, each at least 799
    units of depth behind the one before. *)
Definition spaced (os : list Obstacle) : Prop :=
  StronglySorted (fun a b => o_z a + num:(799) <= o_z b) os.

(** The speed never drops below its initial value, and every obstacle is
    closer than 2000 - speed, the depth a new obstacle has at the end of the
    tick that spawns it, by at least 2399/2400 of the distance travelled
    since the last spawn. *)
Definition gap_inv (s : State) : Prop :=
  SPEED_INITIAL <= speed s /\
  lastSpawnZ s <= distance s /\
  Forall (fun o => 2400 * (o_z o + speed s - num:(2000))
                   <= - 2399 * (distance s - lastSpawnZ s)) (obstacles s) /\
  spaced (obstacles s).

(** The pursuit meter is above -80, and above -40 while the run is not
    over. *)
Definition low_inv (s : State) : Prop :=
  (gameOver s = false -> num:(-40) < policeDistance s) /\
  num:(-80) < policeDistance s.

(** The flag [gameOver] of the game state and the phase ['gameover'] of the
    component go together. *)
Definition phase_inv (w : World) : Prop :=
  gameOver (st w) = true <-> gameState w = gameover.

(** What every reachable world satisfies about the meter. *)
Definition world_inv (w : World) : Prop :=
  meter_inv (st w) /\ gap_inv (st w) /\ low_inv (st w).

(** A straight run: the player starts and never touches a key, and every
    obstacle is a barrier in the middle lane. *)
Definition middle : Rand := mkRand num:(0.5) num:(0.5).

Definition straightRun (frames : nat) : list Event :=
  TapToStart :: repeat (Frame middle) frames.

(** A run in which the player jumps shortly before the first barrier
    arrives. *)
Definition jumpRun : list Event :=
  straightRun 196 ++ [KeyDown "ArrowUp"] ++ repeat (Frame middle) 7.

(** A run in which the player waits in the left lane and then steps back
    into the middle lane, in front of the barriers. *)
Definition dodgeRun : list Event :=
  TapToStart :: KeyDown "a" :: repeat (Frame middle) 790
    ++ [KeyDown "d"] ++ repeat (Frame middle) 122.

(** ** Notions used in the further properties *)

(** The player the jump branch of [handleKeyDown] leaves behind. *)
Definition jump (p : Player) : Player :=
  mkPlayer (lane p) (y p) JUMP_FORCE true (stumbleCooldown p).

(** The height [n] frames into a jump: 0.3 n^2 - 15.3 n. *)
Definition jumpHeight (n : Z) : num := num:(0.3) * n * n - num:(15.3) * n.

(** The player is on the ground, or [n] frames into a jump for some [n]
    from 0 to 50. *)
Definition player_inv (p : Player) : Prop :=
  (isJumping p = false -> y p = 0) /\
  (isJumping p = true ->
   exists n : Z, 0 <= n <= 50 /\ vy p = JUMP_FORCE + GRAVITY * n /\
                 y p = jumpHeight n).

(** The speed and the distance after [n] ticks of a run:
    speed = 12 + 0.005 n and distance = 12 n + 0.005 n (n + 1) / 2; the score
    is the distance in tens. *)
Definition motion_inv (s : State) : Prop :=
  exists n : Z,
    0 <= n /\
    speed s = SPEED_INITIAL + SPEED_INCREMENT * n /\
    2 * distance s = n * (2 * SPEED_INITIAL + SPEED_INCREMENT * (n + 1)) /\
    score s = floor_div (distance s) 10.

(** The score on screen is the score of the game state; the coins on screen
    are at most the coins of the game state. *)
Definition hud_inv (w : World) : Prop :=
  hudScore w = score (st w) /\ 0 <= hudCoins w <= coins (st w).

(** After a tick the spawner is never behind, and nothing in the pools is at
    or beyond the cleanup depth. *)
Definition pool_inv (s : State) : Prop :=
  distance s - lastSpawnZ s <= num:(800) /\
  Forall (fun o => num:(-200) < o_z o) (obstacles s) /\
  Forall (fun c => num:(-200) < c_z c) (items s).

(** stumbleCooldown is 0 or 20; while it is 0 the meter is full and the run
    is not over; and when the run is over the meter is at or below 0. *)
Definition crash_inv (s : State) : Prop :=
  (stumbleCooldown (player s) = 0 \/ stumbleCooldown (player s) = 20) /\
  (stumbleCooldown (player s) = 0 ->
   policeDistance s = num:(100) /\ gameOver s = false) /\
  (gameOver s = true -> policeDistance s <= 0).

(** Coins are kept in the order of their depth, each at least 150 behind the
    one before. *)
Definition coinsSpaced (cs : list Coin) : Prop :=
  StronglySorted (fun a b => c_z a + num:(150) <= c_z b) cs.

(** Coins are kept in the order of their depth, each at least [d] behind the
    one before. *)
Definition coinsApart (d : num) (cs : list Coin) : Prop :=
  StronglySorted (fun a b => c_z a + d <= c_z b) cs.

(** Each coin is at least 799 behind the third coin before it. *)
Definition coinsThirds (cs : list Coin) : Prop :=
  forall (i : nat) (a b : Coin),
    nth_error cs i = Some a -> nth_error cs (i + 3) = Some b ->
    c_z a + num:(799) <= c_z b.

(** Every coin is closer than 2300 - speed, the depth the last coin of a new
    run has at the end of the tick that spawns it, by at least 2399/2400 of
    the distance travelled since the last spawn. *)
Definition coin_inv (s : State) : Prop :=
  Forall (fun c => 2400 * (c_z c + speed s - num:(2300))
                   <= - 2399 * (distance s - lastSpawnZ s)) (items s) /\
  coinsSpaced (items s) /\
  coinsThirds (items s).

(** The coin [c] belongs to a run of coins spawned together with an obstacle
    that is, or would by now be, at depth [a]: the coin is at [a], [a + 150]
    or [a + 300]; that obstacle, if still in the pool, is in another lane;
    and every other obstacle is at least 799 away from [a]. *)
Definition anchored (s : State) (c : Coin) : Prop :=
  exists a : num,
    (c_z c = a \/ c_z c = a + num:(150) \/ c_z c = a + num:(300)) /\
    2400 * (a + speed s - num:(2000))
      <= - 2399 * (distance s - lastSpawnZ s) /\
    Forall (fun o => (o_z o = a /\ o_lane o <> c_lane c) \/
                     a + num:(799) <= o_z o \/ o_z o + num:(799) <= a)
           (obstacles s).

Definition apart_inv (s : State) : Prop := Forall (anchored s) (items s).

(** A run in which the second obstacle is spawned in the lane of the first
    run of coins. *)
Definition mixedRun : list Event :=
  TapToStart :: repeat (Frame middle) 66
    ++ repeat (Frame (mkRand num:(0.9) num:(0.5))) 70.

(** ** [GameOverOverlay] *)

(** The argument of [submit.mutate]. *)
Record ScoreRequest := mkScoreRequest {
  req_username : string;
  req_score : Z;
  req_coins : Z
}.

(** [handleSubmit] for the props [score] and [coins] and the state
    [username]: the request handed to [submit.mutate], if it is called. *)
Definition handleSubmit (score coins : Z) (username : string)
  : option ScoreRequest :=
  if (username =? "")%string then None
  else Some (mkScoreRequest username score coins).

(** The overlay is rendered in the phase 'gameover' only, with the [score]
    and [coins] of the component as props. *)
Definition submitFrom (w : World) (username : string) : option ScoreRequest :=
  match gameState w with
  | gameover => handleSubmit (hudScore w) (hudCoins w) username
  | _ => None
  end.

(** A run that ends with the player stepping into a barrier and then onto a
    coin. *)
Definition lastCoinRun : list Event :=
  straightRun 380 ++ [KeyDown "a"] ++ repeat (Frame middle) 9
    ++ [KeyDown "d"; Frame middle; KeyDown "d"; Frame middle].

(** ** [Leaderboard] *)

Inductive Badge := gold | silver | bronze | plain.

(** The colours of the rank box, by index. *)
Definition badgeOf (index : nat) : Badge :=
  match index with
  | 0%nat => gold
  | 1%nat => silver
  | 2%nat => bronze
  | _ => plain
  end.

(** [l.map((score, index) => ...)] from index [index] on: the rank shown is
    [index + 1]. *)
Fixpoint rowsFrom {Score : Type} (index : nat) (l : list Score)
  : list (nat * Badge * Score) :=
  match l with
  | [] => []
  | score :: rest => (index + 1, badgeOf index, score)%nat
                     :: rowsFrom (S index) rest
  end.

(** The rows of the loaded board: [scores?.slice(0, 5).map(...)], where
    [None] is an undefined [scores]. *)
Definition leaderboardRows {Score : Type} (scores : option (list Score))
  : list (nat * Badge * Score) :=
  match scores with
  | None => []
  | Some l => rowsFrom 0 (firstn 5 l)
  end.

(** The condition of the "No scores yet" text:
    [!scores || scores.length === 0]. *)
Definition noScoresYet {Score : Type} (scores : option (list Score)) : bool :=
  match scores with
  | None => true
  | Some l => (List.length l =? 0)%nat
  end.

(** ** The draw loop over obstacles and coins *)

(** A number as a rational. *)
Definition to_Q (x : num) : Q := (inject_Z x / 1000)%Q.

(** The perspective factor of an object: [300 / (300 + obj.z)].  The only
    depth at which JavaScript divides by zero here is -300. *)
Definition drawScale (z : num) : Q := (300 / (300 + to_Q z))%Q.

Definition Qlt_bool (a b : Q) : bool := negb (Qle_bool b a).

(** The test [scale < 0 || scale > 2] that skips an object. *)
Definition culled (z : num) : bool :=
  Qlt_bool (drawScale z) 0 || Qlt_bool 2 (drawScale z).

(** An obstacle is drawn unless it is skipped; a coin is drawn unless it is
    skipped or no longer active. *)
Definition obstacleDrawn (o : Obstacle) : bool := negb (culled (o_z o)).

Definition coinDrawn (c : Coin) : bool := negb (culled (c_z c)) && active c.

(** ** What a tick spawns *)

(** What a tick spawns, at the end of the movement: nothing, or an obstacle
    and three coins that have moved once. *)
Definition spawnedObstacles (rnd : Rand) (s : State) : list Obstacle :=
  if spawnDue (policeCheck (beforeCheck s))
  then [mkObstacle (spawnLane rnd)
                   (num:(2000) - (speed s + SPEED_INCREMENT))
                   (spawnType rnd) false]
  else [].

Definition spawnedCoins (rnd : Rand) (s : State) : list Coin :=
  if spawnDue (policeCheck (beforeCheck s))
  then [mkCoin (spawnCoinLane rnd)
               (num:(2000) - (speed s + SPEED_INCREMENT)) true num:(0.1);
        mkCoin (spawnCoinLane rnd)
               (num:(2150) - (speed s + SPEED_INCREMENT)) true num:(0.1);
        mkCoin (spawnCoinLane rnd)
               (num:(2300) - (speed s + SPEED_INCREMENT)) true num:(0.1)]
  else [].

(** * Basic facts *)

(** Invariants: a property of the initial world that every step keeps holds
    after every sequence of events. *)
Lemma run_invariant (P : World -> Prop) :
  (forall e w, event_ok e = true -> P w -> P (step e w)) ->
  forall evs w, events_ok evs = true -> P w -> P (run evs w).
Proof.
  intros Hstep evs. induction evs as [|e evs IH]; intros w Hok Hw; simpl.
  - exact Hw.
  - simpl in Hok. apply andb_true_iff in Hok as [He Hevs].
    apply IH; auto.
Qed.

(** ** The obstacle loop *)

Lemma collideObstacle_hits (o : Obstacle) (s : State) :
  collideObstacle o s =
  if hits (lane (player s)) (y (player s)) o
  then (set_passed o true, crash s) else (o, s).
Proof.
  unfold collideObstacle, hits.
  destruct (negb (passed o) && nearPlayer (o_z o)); simpl; auto.
  destruct (o_lane o =? lane (player s)); simpl; auto.
  destruct ((y (player s) <? -50000) && is_barrier (o_type o)); auto.
Qed.

Lemma crash_lane (s : State) : lane (player (crash s)) = lane (player s).
Proof. reflexivity. Qed.

Lemma crash_y (s : State) : y (player (crash s)) = y (player s).
Proof. reflexivity. Qed.

(** The loop marks exactly the obstacles that hit, and crashes once for
    each of them. *)
Lemma collideObstacles_spec (os : list Obstacle) (s : State) :
  collideObstacles os s =
  (map (fun o => if hits (lane (player s)) (y (player s)) o
                 then set_passed o true else o) os,
   Nat.iter (List.length (filter (hits (lane (player s)) (y (player s))) os))
            crash s).
Proof.
  revert s. induction os as [|o os IH]; intros s; simpl; auto.
  rewrite collideObstacle_hits.
  destruct (hits (lane (player s)) (y (player s)) o) eqn:Hh.
  - rewrite IH, crash_lane, crash_y. simpl. f_equal.
    apply (Nat.iter_swap _ _ crash).
  - rewrite IH. reflexivity.
Qed.

Lemma iter_crash_policeDistance (n : nat) (s : State) :
  policeDistance (Nat.iter n crash s) = policeDistance s - 40000 * Z.of_nat n.
Proof.
  induction n as [|n IH].
  - simpl. lia.
  - rewrite Nat.iter_succ. unfold crash at 1. simpl. rewrite IH. lia.
Qed.

Lemma iter_crash_player (n : nat) (s : State) :
  player (Nat.iter n crash s) =
  match n with
  | O => player s
  | S _ => set_stumbleCooldown (player s) 20
  end.
Proof.
  induction n as [|n IH]; auto.
  rewrite Nat.iter_succ. unfold crash at 1. simpl. rewrite IH.
  destruct n; reflexivity.
Qed.

Lemma iter_crash_fields (n : nat) (s : State) :
  let s' := Nat.iter n crash s in
  speed s' = speed s /\ distance s' = distance s /\ score s' = score s /\
  coins s' = coins s /\ obstacles s' = obstacles s /\ items s' = items s /\
  lastSpawnZ s' = lastSpawnZ s /\ gameOver s' = gameOver s.
Proof.
  induction n as [|n IH]; simpl; auto 10.
Qed.

(** ** The coin loop *)

Lemma collectItem_collects (c : Coin) (s : State) :
  collectItem c s =
  if collects (lane (player s)) (y (player s)) c
  then (set_active c false, addCoin s) else (c, s).
Proof.
  unfold collectItem, collects.
  destruct (active c && nearCoin (c_z c) && (c_lane c =? lane (player s)));
    simpl; auto.
Qed.

Lemma collectItems_spec (cs : list Coin) (s : State) :
  collectItems cs s =
  (map (fun c => if collects (lane (player s)) (y (player s)) c
                 then set_active c false else c) cs,
   Nat.iter (List.length (filter (collects (lane (player s)) (y (player s))) cs))
            addCoin s).
Proof.
  revert s. induction cs as [|c cs IH]; intros s; simpl; auto.
  rewrite collectItem_collects.
  destruct (collects (lane (player s)) (y (player s)) c) eqn:Hc.
  - rewrite IH. simpl. f_equal. apply (Nat.iter_swap _ _ addCoin).
  - rewrite IH. reflexivity.
Qed.

Lemma iter_addCoin_coins (n : nat) (s : State) :
  coins (Nat.iter n addCoin s) = coins s + Z.of_nat n.
Proof.
  induction n as [|n IH].
  - simpl. lia.
  - rewrite Nat.iter_succ. unfold addCoin at 1. simpl. rewrite IH. lia.
Qed.

Lemma iter_addCoin_fields (n : nat) (s : State) :
  let s' := Nat.iter n addCoin s in
  speed s' = speed s /\ distance s' = distance s /\ score s' = score s /\
  player s' = player s /\ policeDistance s' = policeDistance s /\
  obstacles s' = obstacles s /\ items s' = items s /\
  lastSpawnZ s' = lastSpawnZ s /\ gameOver s' = gameOver s.
Proof.
  induction n as [|n IH]; simpl; auto 10.
Qed.

(** ** The collision blocks on the game state *)

Lemma collisionObstacles_eq (s : State) :
  collisionObstacles s =
  set_obstacles
    (Nat.iter (List.length (filter (hits (lane (player s)) (y (player s)))
                                   (obstacles s))) crash s)
    (map (fun o => if hits (lane (player s)) (y (player s)) o
                   then set_passed o true else o) (obstacles s)).
Proof.
  unfold collisionObstacles. rewrite collideObstacles_spec. reflexivity.
Qed.

Lemma collisionItems_eq (s : State) :
  collisionItems s =
  set_items
    (Nat.iter (List.length (filter (collects (lane (player s)) (y (player s)))
                                   (items s))) addCoin s)
    (map (fun c => if collects (lane (player s)) (y (player s)) c
                   then set_active c false else c) (items s)).
Proof.
  unfold collisionItems. rewrite collectItems_spec. reflexivity.
Qed.

Lemma collisionObstacles_policeDistance (s : State) :
  policeDistance (collisionObstacles s) =
  policeDistance s
  - 40000 * count (hits (lane (player s)) (y (player s))) (obstacles s).
Proof.
  rewrite collisionObstacles_eq. simpl.
  apply iter_crash_policeDistance.
Qed.

Lemma collisionObstacles_player (s : State) :
  player (collisionObstacles s) =
  if 0 <? count (hits (lane (player s)) (y (player s))) (obstacles s)
  then set_stumbleCooldown (player s) 20 else player s.
Proof.
  rewrite collisionObstacles_eq. simpl. rewrite iter_crash_player.
  unfold count.
  destruct (List.length _); reflexivity.
Qed.

Lemma collisionObstacles_obstacles (s : State) :
  obstacles (collisionObstacles s) =
  map (fun o => if hits (lane (player s)) (y (player s)) o
                then set_passed o true else o) (obstacles s).
Proof. rewrite collisionObstacles_eq. reflexivity. Qed.

Lemma collisionObstacles_fields (s : State) :
  let s' := collisionObstacles s in
  speed s' = speed s /\ distance s' = distance s /\ score s' = score s /\
  coins s' = coins s /\ items s' = items s /\
  lastSpawnZ s' = lastSpawnZ s /\ gameOver s' = gameOver s /\
  lane (player s') = lane (player s) /\ y (player s') = y (player s) /\
  vy (player s') = vy (player s) /\
  isJumping (player s') = isJumping (player s).
Proof.
  cbv zeta. rewrite collisionObstacles_player.
  rewrite collisionObstacles_eq.
  pose proof (iter_crash_fields
    (List.length (filter (hits (lane (player s)) (y (player s))) (obstacles s)))
    s) as H.
  cbv zeta in H. decompose [and] H. simpl.
  destruct (0 <? _); simpl; repeat split; assumption.
Qed.

Lemma collisionItems_coins (s : State) :
  coins (collisionItems s) =
  coins s + count (collects (lane (player s)) (y (player s))) (items s).
Proof.
  rewrite collisionItems_eq. simpl. apply iter_addCoin_coins.
Qed.

Lemma collisionItems_items (s : State) :
  items (collisionItems s) =
  map (fun c => if collects (lane (player s)) (y (player s)) c
                then set_active c false else c) (items s).
Proof. rewrite collisionItems_eq. reflexivity. Qed.

Lemma collisionItems_fields (s : State) :
  let s' := collisionItems s in
  speed s' = speed s /\ distance s' = distance s /\ score s' = score s /\
  player s' = player s /\ policeDistance s' = policeDistance s /\
  obstacles s' = obstacles s /\
  lastSpawnZ s' = lastSpawnZ s /\ gameOver s' = gameOver s.
Proof.
  cbv zeta. rewrite collisionItems_eq.
  pose proof (iter_addCoin_fields
    (List.length (filter (collects (lane (player s)) (y (player s))) (items s)))
    s) as H.
  cbv zeta in H. decompose [and] H. simpl. repeat split; assumption.
Qed.

(** ** The blocks before the collision loops *)

Lemma update_eq (rnd : Rand) (s : State) :
  update rnd s = collisionItems (collisionObstacles (beforeCollision rnd s)).
Proof. reflexivity. Qed.

Lemma policeRecover_fields (s : State) :
  let s' := policeRecover s in
  speed s' = speed s /\ distance s' = distance s /\ score s' = score s /\
  coins s' = coins s /\ player s' = player s /\
  obstacles s' = obstacles s /\ items s' = items s /\
  lastSpawnZ s' = lastSpawnZ s /\ gameOver s' = gameOver s.
Proof.
  unfold policeRecover. destruct (policeDistance s <? 100000); simpl; auto 10.
Qed.

Lemma policeCheck_fields (s : State) :
  let s' := policeCheck s in
  speed s' = speed s /\ distance s' = distance s /\ score s' = score s /\
  coins s' = coins s /\ player s' = player s /\
  policeDistance s' = policeDistance s /\
  obstacles s' = obstacles s /\ items s' = items s /\
  lastSpawnZ s' = lastSpawnZ s /\ gameOver s' = gameOver s || caught s.
Proof.
  unfold policeCheck. destruct (caught s); simpl;
    rewrite ?orb_true_r, ?orb_false_r; auto 10.
Qed.

Lemma spawning_fields (rnd : Rand) (s : State) :
  let s' := spawning rnd s in
  speed s' = speed s /\ distance s' = distance s /\ score s' = score s /\
  coins s' = coins s /\ player s' = player s /\
  policeDistance s' = policeDistance s /\ gameOver s' = gameOver s.
Proof.
  unfold spawning. destruct (spawnDue s); simpl; auto 10.
Qed.

Lemma beforeCheck_fields (s : State) :
  let s' := beforeCheck s in
  speed s' = speed s + SPEED_INCREMENT /\
  distance s' = distance s + (speed s + SPEED_INCREMENT) /\
  score s' = floor_div (distance s + (speed s + SPEED_INCREMENT)) 10 /\
  coins s' = coins s /\ player s' = playerPhysics (player s) /\
  policeDistance s' = policeDistance (policeRecover s) /\
  obstacles s' = obstacles s /\ items s' = items s /\
  lastSpawnZ s' = lastSpawnZ s /\ gameOver s' = gameOver s.
Proof.
  unfold beforeCheck, policeRecover.
  cbn [policeDistance set_player updateSpeed].
  destruct (policeDistance s <? 100000); simpl; auto 10.
Qed.

Lemma beforeCheck_policeDistance (s : State) :
  policeDistance (beforeCheck s) = policeDistance (policeRecover s).
Proof.
  destruct (beforeCheck_fields s) as (_ & _ & _ & _ & _ & H & _). exact H.
Qed.

(** The fields the spawning, moving and cleanup blocks leave alone. *)
Lemma beforeCollision_fields (rnd : Rand) (s : State) :
  let s' := beforeCollision rnd s in
  speed s' = speed s + SPEED_INCREMENT /\
  distance s' = distance s + (speed s + SPEED_INCREMENT) /\
  score s' = floor_div (distance s + (speed s + SPEED_INCREMENT)) 10 /\
  coins s' = coins s /\ player s' = playerPhysics (player s) /\
  policeDistance s' = policeDistance (policeRecover s) /\
  gameOver s' = gameOver s || caught (beforeCheck s).
Proof.
  cbv zeta. unfold beforeCollision.
  destruct (spawning_fields rnd (policeCheck (beforeCheck s)))
    as (H1 & H2 & H3 & H4 & H5 & H6 & H7).
  destruct (policeCheck_fields (beforeCheck s))
    as (K1 & K2 & K3 & K4 & K5 & K6 & _ & _ & _ & K10).
  destruct (beforeCheck_fields s)
    as (B1 & B2 & B3 & B4 & B5 & B6 & _ & _ & _ & B10).
  cbv zeta in *.
  unfold cleanup, updateObjects, set_items, set_obstacles.
  cbn [speed distance score coins player policeDistance gameOver].
  rewrite H1, H2, H3, H4, H5, H6, H7, K1, K2, K3, K4, K5, K6, K10.
  rewrite B1, B2, B3, B4, B5, B6, B10.
  auto 10.
Qed.

Lemma beforeCollision_player (rnd : Rand) (s : State) :
  player (beforeCollision rnd s) = playerPhysics (player s).
Proof.
  destruct (beforeCollision_fields rnd s) as (_ & _ & _ & _ & H & _). exact H.
Qed.

Lemma beforeCollision_policeDistance (rnd : Rand) (s : State) :
  policeDistance (beforeCollision rnd s) = policeDistance (policeRecover s).
Proof.
  destruct (beforeCollision_fields rnd s) as (_ & _ & _ & _ & _ & H & _). exact H.
Qed.

Lemma beforeCollision_gameOver (rnd : Rand) (s : State) :
  gameOver (beforeCollision rnd s) = gameOver s || caught (beforeCheck s).
Proof.
  destruct (beforeCollision_fields rnd s) as (_ & _ & _ & _ & _ & _ & H). exact H.
Qed.

Lemma beforeCollision_coins (rnd : Rand) (s : State) :
  coins (beforeCollision rnd s) = coins s.
Proof.
  destruct (beforeCollision_fields rnd s) as (_ & _ & _ & H & _). exact H.
Qed.

Lemma beforeCollision_speed (rnd : Rand) (s : State) :
  speed (beforeCollision rnd s) = speed s + SPEED_INCREMENT.
Proof.
  destruct (beforeCollision_fields rnd s) as (H & _). exact H.
Qed.

Lemma beforeCollision_distance (rnd : Rand) (s : State) :
  distance (beforeCollision rnd s) = distance s + (speed s + SPEED_INCREMENT).
Proof.
  destruct (beforeCollision_fields rnd s) as (_ & H & _). exact H.
Qed.

(** ** One tick, field by field *)

Lemma update_player (rnd : Rand) (s : State) :
  player (update rnd s) =
  let p := playerPhysics (player s) in
  if 0 <? count (hits (lane p) (y p)) (obstacles (beforeCollision rnd s))
  then set_stumbleCooldown p 20 else p.
Proof.
  rewrite update_eq.
  destruct (collisionItems_fields (collisionObstacles (beforeCollision rnd s)))
    as (_ & _ & _ & Hp & _).
  rewrite Hp, collisionObstacles_player, beforeCollision_player. reflexivity.
Qed.

Lemma update_policeDistance (rnd : Rand) (s : State) :
  policeDistance (update rnd s) =
  policeDistance (policeRecover s)
  - 40000 * count (hits (lane (playerPhysics (player s)))
                        (y (playerPhysics (player s))))
                  (obstacles (beforeCollision rnd s)).
Proof.
  rewrite update_eq.
  destruct (collisionItems_fields (collisionObstacles (beforeCollision rnd s)))
    as (_ & _ & _ & _ & Hd & _).
  rewrite Hd, collisionObstacles_policeDistance, beforeCollision_player,
    beforeCollision_policeDistance.
  reflexivity.
Qed.

Lemma update_gameOver (rnd : Rand) (s : State) :
  gameOver (update rnd s) = gameOver s || caught (beforeCheck s).
Proof.
  rewrite update_eq.
  destruct (collisionItems_fields (collisionObstacles (beforeCollision rnd s)))
    as (_ & _ & _ & _ & _ & _ & _ & Hg).
  destruct (collisionObstacles_fields (beforeCollision rnd s))
    as (_ & _ & _ & _ & _ & _ & Hg' & _).
  rewrite Hg, Hg'. apply beforeCollision_gameOver.
Qed.

Lemma update_coins (rnd : Rand) (s : State) :
  coins (update rnd s) =
  coins s
  + count (collects (lane (playerPhysics (player s)))
                    (y (playerPhysics (player s))))
          (items (beforeCollision rnd s)).
Proof.
  rewrite update_eq, collisionItems_coins.
  destruct (collisionObstacles_fields (beforeCollision rnd s))
    as (_ & _ & _ & Hc & Hi & _ & _ & Hl & Hy & _).
  rewrite Hc, Hi, Hl, Hy, beforeCollision_coins, beforeCollision_player.
  reflexivity.
Qed.

Lemma playerPhysics_lane (p : Player) : lane (playerPhysics p) = lane p.
Proof.
  unfold playerPhysics. destruct (isJumping p); auto.
  cbv zeta. destruct (0 <=? y p + vy p); reflexivity.
Qed.

Lemma playerPhysics_stumbleCooldown (p : Player) :
  stumbleCooldown (playerPhysics p) = stumbleCooldown p.
Proof.
  unfold playerPhysics. destruct (isJumping p); auto.
  cbv zeta. destruct (0 <=? y p + vy p); reflexivity.
Qed.

(** ** Counting *)

Lemma count_nonneg {A : Type} (f : A -> bool) (l : list A) : 0 <= count f l.
Proof. unfold count. lia. Qed.

Lemma count_cons {A : Type} (f : A -> bool) (a : A) (l : list A) :
  count f (a :: l) = (if f a then 1 else 0) + count f l.
Proof.
  unfold count. cbn [filter]. destruct (f a); cbn [List.length]; lia.
Qed.

Lemma count_nth_error {A : Type} (f : A -> bool) (l : list A) (i : nat) (a : A) :
  nth_error l i = Some a -> f a = true -> 1 <= count f l.
Proof.
  revert i. induction l as [|b l IH]; intros [|i] Hn Hf; simpl in Hn;
    try discriminate; rewrite count_cons.
  - injection Hn as ->. rewrite Hf. pose proof (count_nonneg f l). lia.
  - specialize (IH i Hn Hf). destruct (f b); lia.
Qed.

(** Collecting turns exactly the collected coins inactive. *)
Lemma count_active_collected (l : Z) (py : num) (cs : list Coin) :
  count active
        (map (fun c => if collects l py c then set_active c false else c) cs)
  = count active cs - count (collects l py) cs.
Proof.
  induction cs as [|c cs IH]; cbn [map]; rewrite ?count_cons.
  - reflexivity.
  - rewrite IH. destruct (collects l py c) eqn:Hc.
    + assert (active c = true) as Ha
        by (unfold collects in Hc; destruct (active c); [auto | discriminate]).
      rewrite Ha. cbn [set_active active]. lia.
    + destruct (active c); lia.
Qed.

(** ** Lanes chosen by the spawner *)

Lemma spawnLane_range (rnd : Rand) :
  rand_ok rnd = true -> 0 <= spawnLane rnd <= 2.
Proof.
  unfold rand_ok, spawnLane, floor_mul. intros H.
  apply andb_true_iff in H as [H _].
  apply andb_true_iff in H as [H _].
  apply andb_true_iff in H as [Hlo Hhi].
  apply Z.leb_le in Hlo. apply Z.ltb_lt in Hhi.
  split.
  - apply Z.div_pos; lia.
  - assert (rndLane rnd * 3 / 1000 < 3); [|lia].
    apply Z.div_lt_upper_bound; lia.
Qed.

Lemma coinLane_of_lane (l : Z) :
  0 <= l <= 2 -> 0 <= Z.rem (l + 1) 3 <= 2 /\ Z.rem (l + 1) 3 <> l /\
                 Z.rem (l + 1) 3 = (l + 1) mod LANE_COUNT.
Proof.
  intros H. assert (l = 0 \/ l = 1 \/ l = 2) as [-> | [-> | ->]] by lia;
    cbv; repeat split; congruence.
Qed.

(** * Collisions with obstacles *)

(** C3, as stated, fails: after 196 frames, a jump and 7 more frames, the
    resolve step of the next tick finds the first barrier unresolved, in the
    player's lane, inside the near-band, with the player far above the
    clearance height; it applies no penalty, and it leaves the barrier
    unresolved. *)
Lemma C3_jumped_barrier_not_marked :
  let w := run jumpRun initialWorld in
  let s := beforeCollision middle (st w) in
  events_ok jumpRun = true /\
  nth_error (obstacles s) 0 = Some (mkObstacle 1 num:(238.175) barrier false) /\
  nearPlayer num:(238.175) = true /\
  lane (player s) = 1 /\ y (player s) = num:(-103.2) /\
  policeDistance (collisionObstacles s) = policeDistance s /\
  nth_error (obstacles (st (step (Frame middle) w))) 0
    = Some (mkObstacle 1 num:(238.175) barrier false).
Proof. vm_compute. repeat split; reflexivity. Qed.

(** C3 (amended).  For an unresolved barrier in the player's lane inside the
    near-band, with the player above the clearance height (y < -50), the
    resolve step applies no penalty and leaves the barrier as it is, still
    unresolved.  The flag is set by a crash only, in the same callback that
    applies the penalty, and a resolved obstacle is never processed again. *)
Theorem C3_jumped_barrier_no_penalty_still_unresolved :
  (forall (s : State) (i : nat) (o : Obstacle),
      nth_error (obstacles s) i = Some o ->
      passed o = false -> nearPlayer (o_z o) = true ->
      o_lane o = lane (player s) -> o_type o = barrier ->
      y (player s) < num:(-50) ->
      collideObstacle o s = (o, s) /\
      nth_error (obstacles (collisionObstacles s)) i = Some o) /\
  (forall (o : Obstacle) (s : State),
      passed o = true -> collideObstacle o s = (o, s)) /\
  (forall (o : Obstacle) (s : State),
      passed o = false ->
      passed (fst (collideObstacle o s)) = true ->
      collideObstacle o s = (set_passed o true, crash s)).
Proof.
  split; [|split].
  - intros s i o Hi Hp Hn Hl Ht Hy.
    assert (hits (lane (player s)) (y (player s)) o = false) as Hh.
    { unfold hits. rewrite Ht. apply Z.ltb_lt in Hy. rewrite Hy.
      simpl. now rewrite andb_false_r. }
    split.
    + now rewrite collideObstacle_hits, Hh.
    + rewrite collisionObstacles_obstacles, nth_error_map, Hi. simpl.
      now rewrite Hh.
  - intros o s Hp. rewrite collideObstacle_hits. unfold hits. now rewrite Hp.
  - intros o s Hp Hp'. rewrite collideObstacle_hits in *.
    destruct (hits (lane (player s)) (y (player s)) o); auto.
    simpl in Hp'. congruence.
Qed.

(** The barrier of [jumpRun], as an instance. *)
Lemma C3_jumped_barrier_witness :
  let s := beforeCollision middle (st (run jumpRun initialWorld)) in
  let o := mkObstacle 1 num:(238.175) barrier false in
  collideObstacle o s = (o, s) /\
  nth_error (obstacles (collisionObstacles s)) 0 = Some o.
Proof.
  apply (proj1 C3_jumped_barrier_no_penalty_still_unresolved);
    vm_compute; reflexivity.
Defined.

(** C6.  For an unresolved train in the player's lane inside the near-band,
    the resolve step marks it resolved and applies the penalty (40 off the
    pursuit meter, stumbleCooldown 20), whatever the player's height and
    jumping flag are: the obstacle the callback leaves behind has
    [passed = true] and its lane, depth and type unchanged, and so has the
    obstacle at its place in the pool after the whole loop. *)
Theorem C6_train_always_crashes :
  forall (s : State) (i : nat) (o : Obstacle),
    nth_error (obstacles s) i = Some o ->
    passed o = false -> nearPlayer (o_z o) = true ->
    o_lane o = lane (player s) -> o_type o = train ->
    collideObstacle o s = (set_passed o true, crash s) /\
    policeDistance (crash s) = policeDistance s - num:(40) /\
    stumbleCooldown (player (crash s)) = 20 /\
    nth_error (obstacles (collisionObstacles s)) i = Some (set_passed o true) /\
    policeDistance (collisionObstacles s) <= policeDistance s - num:(40) /\
    stumbleCooldown (player (collisionObstacles s)) = 20 /\
    passed (fst (collideObstacle o s)) = true /\
    o_lane (fst (collideObstacle o s)) = o_lane o /\
    o_z (fst (collideObstacle o s)) = o_z o /\
    o_type (fst (collideObstacle o s)) = o_type o /\
    (exists o' : Obstacle,
        nth_error (obstacles (collisionObstacles s)) i = Some o' /\
        passed o' = true /\ o_lane o' = o_lane o /\ o_z o' = o_z o /\
        o_type o' = o_type o).
Proof.
  intros s i o Hi Hp Hn Hl Ht.
  assert (hits (lane (player s)) (y (player s)) o = true) as Hh.
  { unfold hits. rewrite Hp, Hn, Hl, Ht, Z.eqb_refl. simpl.
    now rewrite andb_false_r. }
  pose proof (count_nth_error _ _ _ _ Hi Hh) as Hc.
  assert (collideObstacle o s = (set_passed o true, crash s)) as He
    by now rewrite collideObstacle_hits, Hh.
  assert (nth_error (obstacles (collisionObstacles s)) i
          = Some (set_passed o true)) as Hm.
  { rewrite collisionObstacles_obstacles, nth_error_map, Hi. simpl.
    now rewrite Hh. }
  split; [exact He|]. split; [reflexivity|]. split; [reflexivity|].
  split; [exact Hm|]. split.
  { rewrite collisionObstacles_policeDistance. lia. }
  split.
  { rewrite collisionObstacles_player.
    destruct (0 <? _) eqn:E; [reflexivity|].
    apply Z.ltb_ge in E. lia. }
  rewrite He. cbn [fst set_passed passed o_lane o_z o_type].
  split; [reflexivity|]. split; [reflexivity|]. split; [reflexivity|].
  split; [reflexivity|].
  exists (set_passed o true). split; [exact Hm|].
  cbn [set_passed passed o_lane o_z o_type]. auto.
Qed.

(** A train met at the top of a jump, as an instance. *)
Lemma C6_train_witness :
  let o := mkObstacle 2 num:(100) train false in
  let s := set_obstacles
             (set_player initialState
                (mkPlayer 2 num:(-180) num:(-3) true 0)) [o] in
  policeDistance (collisionObstacles s) <= policeDistance s - num:(40) /\
  nth_error (obstacles (collisionObstacles s)) 0 = Some (set_passed o true) /\
  passed (fst (collideObstacle o s)) = true.
Proof.
  cbv zeta.
  pose proof (C6_train_always_crashes
                (set_obstacles
                   (set_player initialState
                      (mkPlayer 2 num:(-180) num:(-3) true 0))
                   [mkObstacle 2 num:(100) train false])
                0%nat (mkObstacle 2 num:(100) train false)
                eq_refl eq_refl eq_refl eq_refl eq_refl)
    as (_ & _ & _ & Hm & Hd & _ & Hp & _).
  split; [exact Hd|]. split; [exact Hm | exact Hp].
Defined.

(** * Coins *)

(** C4, as stated, fails: the coin band is not larger than the obstacle
    band.  Depth 200 is inside the obstacle band and outside the coin band,
    and an active coin there, in the lane of a player on the ground, is not
    collected. *)
Lemma C4_coin_band_not_larger :
  let c := mkCoin 1 num:(200) true 0 in
  let s := set_items initialState [c] in
  nearPlayer num:(200) = true /\ nearCoin num:(200) = false /\
  c_lane c = lane (player s) /\ num:(-100) < y (player s) /\
  collisionItems s = s /\
  ~ (forall z : num, nearPlayer z = true -> nearCoin z = true).
Proof.
  cbv zeta. repeat split.
  intros H. specialize (H num:(200) eq_refl). discriminate H.
Qed.

(** C4 (amended).  The coin band (50, 150) is strictly inside the obstacle
    band (50, 250).  An active coin in the player's lane inside the coin
    band, with the player below 100 units of height (y > -100), is marked
    collected and [coins] grows by exactly 1; a collected coin is never
    processed again; over the coin loop, and so over a tick, [coins] grows
    by exactly the number of coins that turned from active to collected. *)
Theorem C4_coin_collected_in_narrower_band :
  (forall z : num, nearCoin z = true -> nearPlayer z = true) /\
  (exists z : num, nearPlayer z = true /\ nearCoin z = false) /\
  (forall (s : State) (i : nat) (c : Coin),
      nth_error (items s) i = Some c ->
      active c = true -> nearCoin (c_z c) = true ->
      c_lane c = lane (player s) -> num:(-100) < y (player s) ->
      collectItem c s = (set_active c false, set_coins s (coins s + 1)) /\
      nth_error (items (collisionItems s)) i = Some (set_active c false)) /\
  (forall (c : Coin) (s : State),
      active c = false -> collectItem c s = (c, s)) /\
  (forall s : State,
      coins (collisionItems s)
      = coins s + (count active (items s)
                   - count active (items (collisionItems s)))) /\
  (forall (rnd : Rand) (s : State),
      coins (update rnd s)
      = coins s + (count active (items (beforeCollision rnd s))
                   - count active (items (update rnd s)))).
Proof.
  repeat apply conj.
  - unfold nearCoin, nearPlayer. intros z H.
    apply andb_true_iff in H as [H1 H2]. rewrite H2.
    apply Z.ltb_lt in H1. rewrite andb_true_r. apply Z.ltb_lt. lia.
  - exists num:(200). split; reflexivity.
  - intros s i c Hi Ha Hn Hl Hy.
    assert (collects (lane (player s)) (y (player s)) c = true) as Hc.
    { unfold collects. rewrite Ha, Hn, Hl, Z.eqb_refl. simpl.
      now apply Z.ltb_lt. }
    split.
    + now rewrite collectItem_collects, Hc.
    + rewrite collisionItems_items, nth_error_map, Hi. simpl. now rewrite Hc.
  - intros c s Ha. rewrite collectItem_collects. unfold collects.
    now rewrite Ha.
  - intros s. rewrite collisionItems_coins, collisionItems_items,
      count_active_collected. lia.
  - intros rnd s. rewrite update_eq.
    set (s1 := collisionObstacles (beforeCollision rnd s)).
    rewrite collisionItems_coins, collisionItems_items,
      count_active_collected.
    destruct (collisionObstacles_fields (beforeCollision rnd s))
      as (_ & _ & _ & Hc & Hi & _).
    fold s1 in Hc, Hi. rewrite Hc, Hi, beforeCollision_coins. lia.
Qed.

(** A coin at depth 100 in front of a player on the ground, as an
    instance. *)
Lemma C4_coin_collected_witness :
  let c := mkCoin 1 num:(100) true 0 in
  let s := set_items initialState [c] in
  collectItem c s = (set_active c false, set_coins s (coins s + 1)) /\
  nth_error (items (collisionItems s)) 0 = Some (set_active c false).
Proof.
  apply (proj1 (proj2 (proj2 C4_coin_collected_in_narrower_band)));
    vm_compute; reflexivity.
Defined.

(** * Player physics *)

(** C5, as stated, fails: on the first frame after a jump the source moves
    the player by the velocity of the jump (-15), not by the velocity
    already slowed by gravity (-14.4). *)
Lemma C5_position_uses_old_velocity :
  let w := run [TapToStart; KeyDown "ArrowUp"] initialWorld in
  let p := player (st w) in
  isJumping p = true /\ y p = 0 /\ vy p = JUMP_FORCE /\
  y (playerPhysics_spec p) = num:(-14.4) /\
  y (playerPhysics p) = num:(-15) /\
  y (player (st (step (Frame middle) w))) = num:(-15) /\
  playerPhysics p <> playerPhysics_spec p.
Proof.
  cbv zeta. repeat split. vm_compute. discriminate.
Qed.

(** C5 (amended).  In a playing tick with the player jumping, the position
    is updated first, by the velocity the tick started with, and the
    velocity is then increased by GRAVITY; when the new position is at or
    beyond the ground (>= 0) it is set to exactly 0 and isJumping is
    cleared.  Nothing later in the tick changes these three fields. *)
Theorem C5_position_then_velocity :
  (forall p : Player,
      isJumping p = true ->
      vy (playerPhysics p) = vy p + GRAVITY /\
      (y p + vy p < 0 ->
       y (playerPhysics p) = y p + vy p /\ isJumping (playerPhysics p) = true) /\
      (0 <= y p + vy p ->
       y (playerPhysics p) = 0 /\ isJumping (playerPhysics p) = false)) /\
  (forall p : Player, isJumping p = false -> playerPhysics p = p) /\
  (forall (rnd : Rand) (s : State),
      y (player (update rnd s)) = y (playerPhysics (player s)) /\
      vy (player (update rnd s)) = vy (playerPhysics (player s)) /\
      isJumping (player (update rnd s))
      = isJumping (playerPhysics (player s))).
Proof.
  repeat apply conj.
  - intros p Hj. unfold playerPhysics. rewrite Hj. cbv zeta.
    destruct (0 <=? y p + vy p) eqn:E; simpl;
      [apply Z.leb_le in E | apply Z.leb_gt in E];
      repeat split; intros; auto; lia.
  - intros p Hj. unfold playerPhysics. now rewrite Hj.
  - intros rnd s. rewrite update_player. cbv zeta.
    destruct (0 <? _); auto.
Qed.

(** The first frame of a jump, as an instance. *)
Lemma C5_position_then_velocity_witness :
  let p := mkPlayer 1 0 JUMP_FORCE true 0 in
  vy (playerPhysics p) = vy p + GRAVITY /\
  (y p + vy p < 0 ->
   y (playerPhysics p) = y p + vy p /\ isJumping (playerPhysics p) = true) /\
  (0 <= y p + vy p ->
   y (playerPhysics p) = 0 /\ isJumping (playerPhysics p) = false).
Proof.
  apply (proj1 C5_position_then_velocity). reflexivity.
Defined.

(** * Spawning *)

(** C7.  When the distance travelled since the last spawn exceeds 800, the
    spawning block appends exactly one obstacle, unresolved, at depth 2000
    in a lane of {0, 1, 2}, and exactly three active coins at depths 2000,
    2150 and 2300 in the lane (obstacle lane + 1) mod LANE_COUNT, which is a
    lane of {0, 1, 2} other than the obstacle's, and records the distance
    as lastSpawnZ; otherwise it does nothing. *)
Theorem C7_spawn_event :
  forall (rnd : Rand) (s : State),
    rand_ok rnd = true ->
    (spawnDue s = true <-> num:(800) < distance s - lastSpawnZ s) /\
    (spawnDue s = false -> spawning rnd s = s) /\
    (spawnDue s = true ->
     exists (l coinLane : Z) (t : ObstacleType),
       0 <= l <= LANE_COUNT - 1 /\
       coinLane = (l + 1) mod LANE_COUNT /\
       0 <= coinLane <= LANE_COUNT - 1 /\ coinLane <> l /\
       obstacles (spawning rnd s)
       = obstacles s ++ [mkObstacle l num:(2000) t false] /\
       items (spawning rnd s)
       = items s ++ [mkCoin coinLane num:(2000) true 0;
                     mkCoin coinLane num:(2000 + 150) true 0;
                     mkCoin coinLane num:(2000 + 150 + 150) true 0] /\
       lastSpawnZ (spawning rnd s) = distance s /\
       distance (spawning rnd s) = distance s /\
       speed (spawning rnd s) = speed s /\
       score (spawning rnd s) = score s /\
       coins (spawning rnd s) = coins s /\
       player (spawning rnd s) = player s /\
       policeDistance (spawning rnd s) = policeDistance s /\
       gameOver (spawning rnd s) = gameOver s).
Proof.
  intros rnd s Hr. repeat apply conj.
  - unfold spawnDue. intros H. now apply Z.ltb_lt.
  - unfold spawnDue. intros H. now apply Z.ltb_lt.
  - intros H. unfold spawning. now rewrite H.
  - intros H. unfold spawning. rewrite H. simpl.
    pose proof (spawnLane_range rnd Hr) as Hl.
    destruct (coinLane_of_lane _ Hl) as (Hc1 & Hc2 & Hc3).
    exists (spawnLane rnd), (spawnCoinLane rnd), (spawnType rnd).
    unfold spawnCoinLane, LANE_COUNT in *.
    repeat split; auto; lia.
Qed.

(** The first spawn of the straight run, in its 66th frame, as an
    instance. *)
Lemma C7_spawn_event_witness :
  let s := st (run (straightRun 65) initialWorld) in
  (spawnDue (beforeCheck s) = true
   <-> num:(800) < distance (beforeCheck s) - lastSpawnZ (beforeCheck s)) /\
  lastSpawnZ (spawning middle (beforeCheck s)) = distance (beforeCheck s).
Proof.
  cbv zeta.
  pose proof (C7_spawn_event middle
                (beforeCheck (st (run (straightRun 65) initialWorld)))
                eq_refl) as (H1 & _ & H3).
  split; [exact H1|].
  destruct H3 as (l & c & t & H); [vm_compute; reflexivity|].
  apply H.
Defined.

(** * Phases of a run *)

Lemma run_invariant_all (P : World -> Prop) :
  (forall e w, P w -> P (step e w)) ->
  forall evs w, P w -> P (run evs w).
Proof.
  intros Hstep evs. induction evs as [|e evs IH]; intros w Hw; simpl; auto.
Qed.

Lemma loop_gameOver (rnd : Rand) (w : World) :
  gameOver (st w) = true -> loop rnd w = w.
Proof. intros H. unfold loop. now rewrite H. Qed.

(** A frame either leaves the component alone or runs the update block of
    a playing run that is not over. *)
Lemma loop_cases (rnd : Rand) (w : World) :
  loop rnd w = w \/
  (gameOver (st w) = false /\ gameState w = playing /\
   loop rnd w
   = mkWorld (if caught (beforeCheck (st w)) then gameover else playing)
             (score (updateSpeed (st w))) (coins (updateSpeed (st w)))
             (update rnd (st w))).
Proof.
  unfold loop. destruct (gameOver (st w)); auto.
  destruct (gameState w); auto.
Qed.

(** A key changes nothing but the player, and of the player neither
    stumbleCooldown nor the height. *)
Lemma handleKeyDown_fields (key : string) (w : World) :
  let w' := handleKeyDown key w in
  gameState w' = gameState w /\ hudScore w' = hudScore w /\
  hudCoins w' = hudCoins w /\
  speed (st w') = speed (st w) /\ distance (st w') = distance (st w) /\
  score (st w') = score (st w) /\ coins (st w') = coins (st w) /\
  policeDistance (st w') = policeDistance (st w) /\
  obstacles (st w') = obstacles (st w) /\ items (st w') = items (st w) /\
  lastSpawnZ (st w') = lastSpawnZ (st w) /\
  gameOver (st w') = gameOver (st w) /\
  stumbleCooldown (player (st w')) = stumbleCooldown (player (st w)) /\
  y (player (st w')) = y (player (st w)).
Proof.
  unfold handleKeyDown. destruct (gameState w) eqn:Hs; auto 20.
  destruct (key_in key ["ArrowLeft"; "a"]%string).
  { destruct (0 <? lane (player (st w))); cbn; auto 20. }
  destruct (key_in key ["ArrowRight"; "d"]%string).
  { destruct (lane (player (st w)) <? LANE_COUNT - 1); cbn; auto 20. }
  destruct (key_in key ["ArrowUp"; "w"; " "]%string); auto 20.
  destruct (negb (isJumping (player (st w)))); cbn; auto 20.
Qed.

Lemma step_gameover (e : Event) (w : World) :
  gameState w = gameover -> is_restart e = false -> step e w = w.
Proof.
  intros Hg He. destruct e; cbn [step]; try discriminate.
  - destruct (loop_cases rnd w) as [H | (_ & H & _)]; congruence.
  - unfold handleKeyDown. now rewrite Hg.
  - now rewrite Hg.
Qed.

Lemma step_phase_inv (e : Event) (w : World) :
  phase_inv w -> phase_inv (step e w).
Proof.
  unfold phase_inv. intros Hw. destruct e; cbn [step].
  - destruct (loop_cases rnd w) as [-> | (Hg & Hs & ->)]; auto.
    cbn [st gameState]. rewrite update_gameOver, Hg. cbn [orb].
    destruct (caught (beforeCheck (st w))); split; auto; discriminate.
  - destruct (handleKeyDown_fields key w)
      as (H1 & _ & _ & _ & _ & _ & _ & _ & _ & _ & _ & H2 & _).
    now rewrite H1, H2.
  - destruct (gameState w) eqn:Hs; rewrite ?Hs; auto. cbn [st gameState].
    split; [|discriminate]. intros H. apply Hw in H. discriminate.
  - destruct (gameState w) eqn:Hs; rewrite ?Hs; auto. simpl.
    split; discriminate.
Qed.

Lemma reachable_phase_inv (evs : list Event) :
  phase_inv (run evs initialWorld).
Proof.
  apply run_invariant_all.
  - apply step_phase_inv.
  - unfold phase_inv. simpl. split; discriminate.
Qed.

(** C8.  A call of [loop] on a game state whose gameOver flag is set returns
    at once; in the phase 'gameover' no frame, key or start event changes the
    component, so score, coins, pursuit meter, distance, speed, player and
    both pools stay as they are through any sequence of events without a
    restart; the phase 'gameover' is only ever reached with the flag set;
    and the restart yields the initial game state. *)
Theorem C8_ended_is_frozen :
  (forall (rnd : Rand) (w : World),
      gameOver (st w) = true -> loop rnd w = w) /\
  (forall (evs : list Event) (w : World),
      gameState w = gameover -> no_restart evs = true -> run evs w = w) /\
  (forall evs : list Event,
      gameState (run evs initialWorld) = gameover ->
      gameOver (st (run evs initialWorld)) = true) /\
  (forall w : World,
      gameState w = gameover ->
      step PlayAgain w = mkWorld start 0 0 initialState).
Proof.
  repeat apply conj.
  - apply loop_gameOver.
  - intros evs. induction evs as [|e evs IH]; intros w Hg Hn; simpl; auto.
    simpl in Hn. apply andb_true_iff in Hn as [He Hn].
    apply negb_true_iff in He.
    rewrite (step_gameover e w Hg He). now apply IH.
  - intros evs. apply (reachable_phase_inv evs).
  - intros w Hg. simpl. now rewrite Hg.
Qed.

(** The straight run is over after 384 frames; four more events, as an
    instance. *)
Lemma C8_ended_is_frozen_witness :
  let w := run (straightRun 384) initialWorld in
  run [Frame middle; KeyDown "ArrowLeft"; TapToStart; Frame middle] w = w.
Proof.
  apply (proj1 (proj2 C8_ended_is_frozen)); vm_compute; reflexivity.
Defined.

(** C10.  A crash sets stumbleCooldown to 20.  No frame, key or start event
    changes stumbleCooldown except to set it to 20, so once it is 20 it stays
    20 through every sequence of events without a restart; the restart sets
    it to 0. *)
Theorem C10_stumbleCooldown_never_decays :
  (forall s : State, stumbleCooldown (player (crash s)) = 20) /\
  (forall (e : Event) (w : World),
      is_restart e = false ->
      stumbleCooldown (player (st (step e w)))
      = stumbleCooldown (player (st w)) \/
      stumbleCooldown (player (st (step e w))) = 20) /\
  (forall (evs : list Event) (w : World),
      stumbleCooldown (player (st w)) = 20 ->
      no_restart evs = true ->
      stumbleCooldown (player (st (run evs w))) = 20) /\
  (forall w : World,
      gameState w = gameover ->
      stumbleCooldown (player (st (step PlayAgain w))) = 0).
Proof.
  assert (forall (e : Event) (w : World),
             is_restart e = false ->
             stumbleCooldown (player (st (step e w)))
             = stumbleCooldown (player (st w)) \/
             stumbleCooldown (player (st (step e w))) = 20) as Hstep.
  { intros e w He. destruct e; cbn [step]; try discriminate.
    - destruct (loop_cases rnd w) as [-> | (Hg & Hs & ->)]; auto.
      cbn [st]. rewrite update_player. cbv zeta.
      destruct (0 <? _); simpl; auto.
      left. apply playerPhysics_stumbleCooldown.
    - left. apply (handleKeyDown_fields key w).
    - destruct (gameState w); auto. }
  repeat apply conj; auto.
  - intros evs. induction evs as [|e evs IH]; intros w Hw Hn; simpl; auto.
    simpl in Hn. apply andb_true_iff in Hn as [He Hn].
    apply negb_true_iff in He. apply IH; auto.
    destruct (Hstep e w He) as [H | H]; congruence.
  - intros w Hg. simpl. now rewrite Hg.
Qed.

(** The hundred frames after the first crash of the straight run, as an
    instance. *)
Lemma C10_stumbleCooldown_witness :
  let w := run (straightRun 204) initialWorld in
  stumbleCooldown (player (st (run (repeat (Frame middle) 100) w))) = 20.
Proof.
  apply (proj1 (proj2 (proj2 C10_stumbleCooldown_never_decays)));
    vm_compute; reflexivity.
Defined.

(** C2, as stated, fails.  In frame 383 of the straight run the meter is
    15.6 before the tick, recovers to 15.8 and passes the check; then the
    third barrier reaches depth 246.245 in the lane of the player, who is on
    the ground, and the crash takes the meter to -24.2.  The phase is still
    'playing' when that tick ends; it becomes 'gameover' in frame 384. *)
Lemma C2_crash_below_zero_ends_a_tick_later :
  let w := run (straightRun 382) initialWorld in
  let w1 := step (Frame middle) w in
  let w2 := step (Frame middle) w1 in
  events_ok (straightRun 384) = true /\
  gameState w = playing /\ gameOver (st w) = false /\
  policeDistance (st w) = num:(15.6) /\
  player (beforeCollision middle (st w)) = mkPlayer 1 0 0 false 20 /\
  nth_error (obstacles (beforeCollision middle (st w))) 0
    = Some (mkObstacle 1 num:(246.245) barrier false) /\
  policeDistance (st w1) = num:(-24.2) /\
  gameState w1 = playing /\ gameOver (st w1) = false /\
  gameState w2 = gameover /\ gameOver (st w2) = true.
Proof. vm_compute. repeat split; reflexivity. Qed.

(** Nor does the next tick always end the run.  In the 913th frame of
    [dodgeRun] the meter is 39.8 before the tick, recovers to 40, and a
    crash takes it to exactly 0; the recovery of the next tick lifts it to
    0.2 before the check, and the run goes on. *)
Lemma meter_at_zero_recovers :
  let w := run dodgeRun initialWorld in
  let w1 := step (Frame middle) w in
  let w2 := step (Frame middle) w1 in
  events_ok dodgeRun = true /\
  gameState w = playing /\ gameOver (st w) = false /\
  policeDistance (st w) = num:(39.8) /\
  player (beforeCollision middle (st w)) = mkPlayer 1 0 0 false 20 /\
  nth_error (obstacles (beforeCollision middle (st w))) 0
    = Some (mkObstacle 1 num:(239.87) barrier false) /\
  policeDistance (st w1) = 0 /\
  gameState w1 = playing /\ gameOver (st w1) = false /\
  policeDistance (st w2) = num:(0.2) /\
  gameState w2 = playing /\ gameOver (st w2) = false.
Proof. vm_compute. repeat split; reflexivity. Qed.

(** C2 (amended).  From a world reached from the initial one and not in the
    phase 'gameover', an event leads to 'gameover' exactly when it is a frame
    of a playing run in which the meter, after the recovery statement of
    that frame, is at or below 0; the flag gameOver is set in exactly the
    same frames.  A crash penalty is subtracted after the check and is seen
    by the check of the next frame, after that frame's recovery. *)
Theorem C2_ended_iff_recovered_meter_depleted :
  forall (evs : list Event) (e : Event),
    gameState (run evs initialWorld) <> gameover ->
    (gameState (step e (run evs initialWorld)) = gameover <->
     exists rnd : Rand,
       e = Frame rnd /\ gameState (run evs initialWorld) = playing /\
       policeDistance (policeRecover (st (run evs initialWorld))) <= 0) /\
    (gameOver (st (step e (run evs initialWorld))) = true <->
     gameState (step e (run evs initialWorld)) = gameover) /\
    (forall rnd : Rand,
        policeDistance (update rnd (st (run evs initialWorld)))
        = policeDistance (policeRecover (st (run evs initialWorld)))
          - num:(40)
            * count (hits (lane (playerPhysics (player (st (run evs initialWorld)))))
                          (y (playerPhysics (player (st (run evs initialWorld))))))
                    (obstacles (beforeCollision rnd (st (run evs initialWorld))))).
Proof.
  intros evs e. set (w := run evs initialWorld). intros Hn.
  pose proof (reachable_phase_inv evs) as Hinv. fold w in Hinv.
  assert (gameOver (st w) = false) as Hg.
  { destruct (gameOver (st w)) eqn:E; auto. exfalso. apply Hn, Hinv, E. }
  repeat apply conj.
  - intros H. destruct e; cbn [step] in H.
    + exists rnd.
      destruct (loop_cases rnd w) as [E | (_ & Hs & E)]; rewrite E in H;
        [congruence|].
      cbn [gameState] in H. repeat split; auto.
      destruct (caught (beforeCheck (st w))) eqn:Hc; try discriminate.
      unfold caught in Hc. rewrite beforeCheck_policeDistance in Hc.
      now apply Z.leb_le.
    + pose proof (handleKeyDown_fields key w) as K. cbv zeta in K.
      destruct K as (E & _). rewrite E in H. contradiction.
    + destruct (gameState w) eqn:Hs; cbn [gameState] in H; congruence.
    + destruct (gameState w) eqn:Hs; cbn [gameState resetGame] in H;
        congruence.
  - intros (rnd & -> & Hs & Hd). cbn [step]. unfold loop. rewrite Hg, Hs.
    cbn [gameState]. unfold caught. rewrite beforeCheck_policeDistance.
    apply Z.leb_le in Hd. now rewrite Hd.
  - apply (step_phase_inv e w Hinv).
  - apply (step_phase_inv e w Hinv).
  - intros rnd. apply update_policeDistance.
Qed.

(** The frame after the third crash of the straight run, as an instance. *)
Lemma C2_ended_witness :
  let evs := straightRun 383 in
  gameState (step (Frame middle) (run evs initialWorld)) = gameover <->
  exists rnd : Rand,
    Frame middle = Frame rnd /\ gameState (run evs initialWorld) = playing /\
    policeDistance (policeRecover (st (run evs initialWorld))) <= 0.
Proof.
  apply (C2_ended_iff_recovered_meter_depleted (straightRun 383) (Frame middle)).
  vm_compute. discriminate.
Defined.

(** * The pools during a tick *)

Lemma spawnDue_beforeCheck (s : State) :
  spawnDue (policeCheck (beforeCheck s))
  = (num:(800) <? distance s + (speed s + SPEED_INCREMENT) - lastSpawnZ s).
Proof.
  unfold spawnDue.
  destruct (policeCheck_fields (beforeCheck s))
    as (_ & Hd & _ & _ & _ & _ & _ & _ & Hl & _).
  destruct (beforeCheck_fields s) as (_ & Hd' & _ & _ & _ & _ & _ & _ & Hl' & _).
  cbv zeta in *. now rewrite Hd, Hl, Hd', Hl'.
Qed.

Lemma spawning_obstacles (rnd : Rand) (s : State) :
  obstacles (spawning rnd s)
  = obstacles s
    ++ (if spawnDue s
        then [mkObstacle (spawnLane rnd) num:(2000) (spawnType rnd) false]
        else []).
Proof.
  unfold spawning. destruct (spawnDue s); simpl; auto.
  now rewrite app_nil_r.
Qed.

Lemma spawning_items (rnd : Rand) (s : State) :
  items (spawning rnd s)
  = items s
    ++ (if spawnDue s
        then [mkCoin (spawnCoinLane rnd) num:(2000) true 0;
              mkCoin (spawnCoinLane rnd) num:(2150) true 0;
              mkCoin (spawnCoinLane rnd) num:(2300) true 0]
        else []).
Proof.
  unfold spawning. destruct (spawnDue s); simpl; auto.
  now rewrite app_nil_r.
Qed.

Lemma spawning_lastSpawnZ (rnd : Rand) (s : State) :
  lastSpawnZ (spawning rnd s)
  = if spawnDue s then distance s else lastSpawnZ s.
Proof. unfold spawning. destruct (spawnDue s); reflexivity. Qed.

(** The pools the collision loops run on. *)
Lemma beforeCollision_obstacles (rnd : Rand) (s : State) :
  obstacles (beforeCollision rnd s)
  = filter (fun o => num:(-200) <? o_z o)
      (map (moveObstacle (speed s + SPEED_INCREMENT))
         (obstacles s
          ++ (if spawnDue (policeCheck (beforeCheck s))
              then [mkObstacle (spawnLane rnd) num:(2000) (spawnType rnd) false]
              else []))).
Proof.
  unfold beforeCollision, cleanup, updateObjects, set_items, set_obstacles.
  cbn [obstacles speed].
  destruct (spawning_fields rnd (policeCheck (beforeCheck s))) as (Hv & _).
  destruct (policeCheck_fields (beforeCheck s))
    as (Hv' & _ & _ & _ & _ & _ & Ho & _).
  destruct (beforeCheck_fields s) as (Hv'' & _ & _ & _ & _ & _ & Ho' & _).
  cbv zeta in *.
  now rewrite spawning_obstacles, Hv, Hv', Hv'', Ho, Ho'.
Qed.

Lemma beforeCollision_items (rnd : Rand) (s : State) :
  items (beforeCollision rnd s)
  = filter (fun i => num:(-200) <? c_z i)
      (map (moveCoin (speed s + SPEED_INCREMENT))
         (items s
          ++ (if spawnDue (policeCheck (beforeCheck s))
              then [mkCoin (spawnCoinLane rnd) num:(2000) true 0;
                    mkCoin (spawnCoinLane rnd) num:(2150) true 0;
                    mkCoin (spawnCoinLane rnd) num:(2300) true 0]
              else []))).
Proof.
  unfold beforeCollision, cleanup, updateObjects, set_items, set_obstacles.
  cbn [items speed].
  destruct (spawning_fields rnd (policeCheck (beforeCheck s))) as (Hv & _).
  destruct (policeCheck_fields (beforeCheck s))
    as (Hv' & _ & _ & _ & _ & _ & _ & Hi & _).
  destruct (beforeCheck_fields s) as (Hv'' & _ & _ & _ & _ & _ & _ & Hi' & _).
  cbv zeta in *.
  now rewrite spawning_items, Hv, Hv', Hv'', Hi, Hi'.
Qed.

Lemma beforeCollision_lastSpawnZ (rnd : Rand) (s : State) :
  lastSpawnZ (beforeCollision rnd s)
  = if spawnDue (policeCheck (beforeCheck s))
    then distance s + (speed s + SPEED_INCREMENT) else lastSpawnZ s.
Proof.
  unfold beforeCollision, cleanup, updateObjects, set_items, set_obstacles.
  cbn [lastSpawnZ]. rewrite spawning_lastSpawnZ.
  destruct (policeCheck_fields (beforeCheck s))
    as (_ & Hd & _ & _ & _ & _ & _ & _ & Hl & _).
  destruct (beforeCheck_fields s) as (_ & Hd' & _ & _ & _ & _ & _ & _ & Hl' & _).
  cbv zeta in *. now rewrite Hd, Hl, Hd', Hl'.
Qed.

Lemma update_obstacles (rnd : Rand) (s : State) :
  obstacles (update rnd s)
  = map (fun o => if hits (lane (playerPhysics (player s)))
                          (y (playerPhysics (player s))) o
                  then set_passed o true else o)
        (obstacles (beforeCollision rnd s)).
Proof.
  rewrite update_eq.
  destruct (collisionItems_fields (collisionObstacles (beforeCollision rnd s)))
    as (_ & _ & _ & _ & _ & Ho & _).
  rewrite Ho, collisionObstacles_obstacles, beforeCollision_player.
  reflexivity.
Qed.

Lemma update_items (rnd : Rand) (s : State) :
  items (update rnd s)
  = map (fun c => if collects (lane (playerPhysics (player s)))
                              (y (playerPhysics (player s))) c
                  then set_active c false else c)
        (items (beforeCollision rnd s)).
Proof.
  rewrite update_eq, collisionItems_items.
  destruct (collisionObstacles_fields (beforeCollision rnd s))
    as (_ & _ & _ & _ & Hi & _ & _ & Hl & Hy & _).
  rewrite Hi, Hl, Hy, beforeCollision_player. reflexivity.
Qed.

Lemma update_motion (rnd : Rand) (s : State) :
  speed (update rnd s) = speed s + SPEED_INCREMENT /\
  distance (update rnd s) = distance s + (speed s + SPEED_INCREMENT) /\
  lastSpawnZ (update rnd s) = lastSpawnZ (beforeCollision rnd s).
Proof.
  rewrite update_eq.
  destruct (collisionItems_fields (collisionObstacles (beforeCollision rnd s)))
    as (Hv & Hd & _ & _ & _ & _ & Hl & _).
  destruct (collisionObstacles_fields (beforeCollision rnd s))
    as (Hv' & Hd' & _ & _ & _ & Hl' & _).
  rewrite Hv, Hd, Hl, Hv', Hd', Hl'.
  rewrite beforeCollision_speed, beforeCollision_distance. auto.
Qed.

(** * Lanes *)

Lemma Forall_filter {A : Type} (P : A -> Prop) (f : A -> bool) (l : list A) :
  Forall P l -> Forall P (filter f l).
Proof.
  rewrite !Forall_forall. intros H x Hx. apply filter_In in Hx. now apply H.
Qed.

Lemma key_right_not_left (key : string) :
  key_in key ["ArrowRight"; "d"]%string = true ->
  key_in key ["ArrowLeft"; "a"]%string = false.
Proof.
  unfold key_in. cbn [existsb]. intros H.
  apply orb_true_iff in H as [H | H].
  - apply String.eqb_eq in H. subst. reflexivity.
  - apply orb_true_iff in H as [H | H]; [|discriminate].
    apply String.eqb_eq in H. subst. reflexivity.
Qed.

Lemma handleKeyDown_left (key : string) (w : World) :
  gameState w = playing -> key_in key ["ArrowLeft"; "a"]%string = true ->
  lane (player (st (handleKeyDown key w)))
  = if 0 <? lane (player (st w))
    then lane (player (st w)) - 1 else lane (player (st w)).
Proof.
  intros Hs Hk. unfold handleKeyDown. rewrite Hs, Hk.
  destruct (0 <? lane (player (st w))); reflexivity.
Qed.

Lemma handleKeyDown_right (key : string) (w : World) :
  gameState w = playing -> key_in key ["ArrowRight"; "d"]%string = true ->
  lane (player (st (handleKeyDown key w)))
  = if lane (player (st w)) <? LANE_COUNT - 1
    then lane (player (st w)) + 1 else lane (player (st w)).
Proof.
  intros Hs Hk. unfold handleKeyDown.
  rewrite Hs, (key_right_not_left key Hk), Hk.
  destruct (lane (player (st w)) <? LANE_COUNT - 1); reflexivity.
Qed.

Lemma handleKeyDown_lane_ok (key : string) (w : World) :
  lane_ok (lane (player (st w))) ->
  lane_ok (lane (player (st (handleKeyDown key w)))).
Proof.
  unfold handleKeyDown, lane_ok, LANE_COUNT. intros H.
  destruct (gameState w); auto.
  destruct (key_in key ["ArrowLeft"; "a"]%string).
  { destruct (0 <? lane (player (st w))) eqn:E; auto.
    apply Z.ltb_lt in E. cbn [st player lane set_player set_lane]. lia. }
  destruct (key_in key ["ArrowRight"; "d"]%string).
  { destruct (lane (player (st w)) <? 3 - 1) eqn:E; auto.
    apply Z.ltb_lt in E. cbn [st player lane set_player set_lane]. lia. }
  destruct (key_in key ["ArrowUp"; "w"; " "]%string); auto.
  destruct (negb (isJumping (player (st w)))); auto.
Qed.

Lemma update_lanes_ok (rnd : Rand) (s : State) :
  rand_ok rnd = true -> lanes_ok s -> lanes_ok (update rnd s).
Proof.
  intros Hr (Hp & Ho & Hi).
  pose proof (spawnLane_range rnd Hr) as Hl.
  destruct (coinLane_of_lane _ Hl) as (Hc & _).
  fold (spawnCoinLane rnd) in Hc.
  split; [|split].
  - rewrite update_player. cbv zeta.
    destruct (0 <? _); cbn [set_stumbleCooldown lane];
      now rewrite playerPhysics_lane.
  - rewrite update_obstacles, beforeCollision_obstacles.
    apply Forall_map, Forall_filter, Forall_map.
    apply Forall_app. split.
    + eapply Forall_impl; [|exact Ho]. intros o H. now destruct (hits _ _ _).
    + destruct (spawnDue _); repeat constructor;
        destruct (hits _ _ _); cbn; unfold LANE_COUNT; lia.
  - rewrite update_items, beforeCollision_items.
    apply Forall_map, Forall_filter, Forall_map.
    apply Forall_app. split.
    + eapply Forall_impl; [|exact Hi]. intros c H.
      now destruct (collects _ _ _).
    + destruct (spawnDue _); repeat constructor;
        destruct (collects _ _ _); cbn; unfold LANE_COUNT; lia.
Qed.

Lemma step_lanes_ok (e : Event) (w : World) :
  event_ok e = true -> lanes_ok (st w) -> lanes_ok (st (step e w)).
Proof.
  intros He Hw. destruct e; cbn [step].
  - destruct (loop_cases rnd w) as [-> | (_ & _ & ->)]; auto.
    cbn [st]. now apply update_lanes_ok.
  - destruct Hw as (Hp & Ho & Hi).
    pose proof (handleKeyDown_fields key w) as K. cbv zeta in K.
    destruct K as (_ & _ & _ & _ & _ & _ & _ & _ & Ko & Ki & _).
    unfold lanes_ok. rewrite Ko, Ki. split; [|split]; auto.
    now apply handleKeyDown_lane_ok.
  - destruct (gameState w); auto.
  - destruct (gameState w); auto.
    cbv. repeat split; try discriminate; constructor.
Qed.

(** C9.  In every world reached from the initial one, the lane of the
    player, of every obstacle and of every coin lies in [0, LANE_COUNT - 1].
    A left key moves the player one lane down unless the lane is 0, a right
    key one lane up unless the lane is LANE_COUNT - 1, and the spawner only
    chooses lanes of {0, 1, 2}. *)
Theorem C9_lanes_in_range :
  (forall evs : list Event,
      events_ok evs = true -> lanes_ok (st (run evs initialWorld))) /\
  (forall (key : string) (w : World),
      gameState w = playing -> key_in key ["ArrowLeft"; "a"]%string = true ->
      lane (player (st (handleKeyDown key w)))
      = if 0 <? lane (player (st w))
        then lane (player (st w)) - 1 else lane (player (st w))) /\
  (forall (key : string) (w : World),
      gameState w = playing -> key_in key ["ArrowRight"; "d"]%string = true ->
      lane (player (st (handleKeyDown key w)))
      = if lane (player (st w)) <? LANE_COUNT - 1
        then lane (player (st w)) + 1 else lane (player (st w))) /\
  (forall rnd : Rand,
      rand_ok rnd = true ->
      lane_ok (spawnLane rnd) /\ lane_ok (spawnCoinLane rnd)).
Proof.
  repeat apply conj.
  - intros evs Hok.
    apply (run_invariant (fun w => lanes_ok (st w))); auto.
    + apply step_lanes_ok.
    + cbv. repeat split; try discriminate; constructor.
  - apply handleKeyDown_left.
  - apply handleKeyDown_right.
  - intros rnd Hr. pose proof (spawnLane_range rnd Hr) as Hl.
    split.
    + unfold lane_ok, LANE_COUNT. lia.
    + destruct (coinLane_of_lane _ Hl) as (Hc & _). exact Hc.
Qed.

(** The world at the end of [dodgeRun], as an instance. *)
Lemma C9_lanes_in_range_witness :
  lanes_ok (st (run dodgeRun initialWorld)).
Proof.
  apply (proj1 C9_lanes_in_range). vm_compute. reflexivity.
Defined.

(** * Spacing of the obstacles *)

Lemma spaced_filter (f : Obstacle -> bool) (os : list Obstacle) :
  spaced os -> spaced (filter f os).
Proof.
  unfold spaced. induction 1 as [|a l Hl IH Ha]; cbn [filter].
  - constructor.
  - destruct (f a); auto. constructor; auto. now apply Forall_filter.
Qed.

Lemma spaced_map (g : Obstacle -> Obstacle) (d : num) (os : list Obstacle) :
  (forall o, o_z (g o) = o_z o - d) -> spaced os -> spaced (map g os).
Proof.
  unfold spaced. intros Hg. induction 1 as [|a l Hl IH Ha]; cbn [map].
  - constructor.
  - constructor; auto. apply Forall_map.
    eapply Forall_impl; [|exact Ha]. cbv beta. intros b Hb.
    rewrite !Hg. lia.
Qed.

Lemma spaced_snoc (os : list Obstacle) (x : Obstacle) :
  spaced os -> Forall (fun a => o_z a + num:(799) <= o_z x) os ->
  spaced (os ++ [x]).
Proof.
  unfold spaced. induction 1 as [|a l Hl IH Ha]; intros Hx; cbn [app].
  - repeat constructor.
  - inversion Hx as [|? ? Hax Hlx]; subst.
    constructor; auto. apply Forall_app. split; auto.
Qed.

Lemma count_none {A : Type} (f : A -> bool) (l : list A) :
  Forall (fun a => f a = false) l -> count f l = 0.
Proof.
  induction 1 as [|a l Ha Hl IH]; [reflexivity|].
  rewrite count_cons, Ha, IH. reflexivity.
Qed.

Section AtMostOneHit.

(** The lane and the height of the player during the obstacle loop. *)
Variables (l : Z) (py : num).

Lemma hits_nearPlayer (o : Obstacle) :
  hits l py o = true -> num:(50) < o_z o < num:(250).
Proof.
  unfold hits, nearPlayer. intros H.
  apply andb_true_iff in H as [H _]. apply andb_true_iff in H as [H _].
  apply andb_true_iff in H as [_ H]. apply andb_true_iff in H as [H1 H2].
  apply Z.ltb_lt in H1. apply Z.ltb_lt in H2. lia.
Qed.

(** Among obstacles that far apart, at most one is inside the near-band,
    so at most one can hit in a tick. *)
Lemma count_hits_spaced (os : list Obstacle) :
  spaced os -> count (hits l py) os <= 1.
Proof.
  unfold spaced. induction 1 as [|a os Hos IH Ha].
  - cbv. discriminate.
  - rewrite count_cons. destruct (hits l py a) eqn:Hh; [|lia].
    apply hits_nearPlayer in Hh. rewrite count_none; [lia|].
    eapply Forall_impl; [|exact Ha]. cbv beta. intros b Hb.
    destruct (hits l py b) eqn:Hb'; auto.
    apply hits_nearPlayer in Hb'. lia.
Qed.

End AtMostOneHit.

Lemma gap_inv_beforeCollision (rnd : Rand) (s : State) :
  gap_inv s -> gap_inv (beforeCollision rnd s).
Proof.
  unfold gap_inv. intros (Hv & Hd & Hf & Hs).
  rewrite beforeCollision_speed, beforeCollision_distance,
    beforeCollision_lastSpawnZ, beforeCollision_obstacles,
    spawnDue_beforeCheck.
  unfold SPEED_INITIAL, SPEED_INCREMENT in *.
  destruct (800000 <? distance s + (speed s + 5) - lastSpawnZ s) eqn:Hdue;
    [apply Z.ltb_lt in Hdue | apply Z.ltb_ge in Hdue; rewrite app_nil_r];
    repeat apply conj; try lia.
  - apply Forall_filter, Forall_map, Forall_app. split.
    + eapply Forall_impl; [|exact Hf]. cbv beta. intros o Ho.
      cbn [moveObstacle o_z]. lia.
    + repeat constructor. cbn [moveObstacle o_z]. lia.
  - apply spaced_filter.
    apply (spaced_map _ (speed s + 5)); [reflexivity|].
    apply spaced_snoc; auto.
    eapply Forall_impl; [|exact Hf]. cbv beta. intros o Ho.
    cbn [o_z]. lia.
  - apply Forall_filter, Forall_map.
    eapply Forall_impl; [|exact Hf]. cbv beta. intros o Ho.
    cbn [moveObstacle o_z]. lia.
  - apply spaced_filter.
    now apply (spaced_map _ (speed s + 5)).
Qed.

Lemma gap_inv_update (rnd : Rand) (s : State) :
  gap_inv s -> gap_inv (update rnd s).
Proof.
  intros H. apply (gap_inv_beforeCollision rnd) in H.
  unfold gap_inv in *. destruct H as (Hv & Hd & Hf & Hs).
  destruct (update_motion rnd s) as (Ev & Ed & El).
  rewrite Ev, Ed, El, update_obstacles.
  rewrite beforeCollision_speed, beforeCollision_distance in *.
  repeat apply conj; auto.
  - apply Forall_map. eapply Forall_impl; [|exact Hf]. cbv beta.
    intros o Ho. now destruct (hits _ _ o).
  - apply (spaced_map _ 0); auto.
    intros o. destruct (hits _ _ o); cbn [set_passed o_z]; lia.
Qed.

(** * The pursuit meter *)

Lemma policeRecover_policeDistance (s : State) :
  policeDistance (policeRecover s)
  = if policeDistance s <? num:(100)
    then policeDistance s + num:(0.2) else policeDistance s.
Proof.
  unfold policeRecover. destruct (policeDistance s <? 100000); reflexivity.
Qed.

Lemma update_meter (rnd : Rand) (s : State) :
  gap_inv s -> meter_inv s -> low_inv s -> gameOver s = false ->
  meter_inv (update rnd s) /\ low_inv (update rnd s).
Proof.
  unfold meter_inv, low_inv. intros Hg (Hm & k & Hk) (Hl & _) Hgo.
  specialize (Hl Hgo).
  rewrite update_gameOver, Hgo, update_policeDistance,
    policeRecover_policeDistance.
  unfold caught. rewrite beforeCheck_policeDistance,
    policeRecover_policeDistance.
  apply (gap_inv_beforeCollision rnd) in Hg.
  destruct Hg as (_ & _ & _ & Hs).
  pose proof (count_hits_spaced (lane (playerPhysics (player s)))
                (y (playerPhysics (player s))) _ Hs) as Hc1.
  pose proof (count_nonneg (hits (lane (playerPhysics (player s)))
                                 (y (playerPhysics (player s))))
                (obstacles (beforeCollision rnd s))) as Hc0.
  set (c := count _ _) in *.
  destruct (policeDistance s <? 100000) eqn:E;
    [apply Z.ltb_lt in E | apply Z.ltb_ge in E].
  - repeat apply conj; try lia.
    exists (k + 1 - 200 * c). lia.
  - repeat apply conj; try lia.
    exists (k - 200 * c). lia.
Qed.

Lemma initialState_inv :
  meter_inv initialState /\ gap_inv initialState /\ low_inv initialState.
Proof.
  unfold meter_inv, gap_inv, low_inv, spaced, initialState, SPEED_INITIAL.
  cbn [policeDistance speed distance lastSpawnZ obstacles gameOver].
  repeat apply conj; try lia; try constructor.
  now exists 500.
Qed.

Lemma step_world_inv (e : Event) (w : World) :
  world_inv w -> world_inv (step e w).
Proof.
  unfold world_inv. intros (Hm & Hg & Hl). destruct e; cbn [step].
  - destruct (loop_cases rnd w) as [-> | (Hgo & _ & ->)]; auto.
    cbn [st]. destruct (update_meter rnd (st w) Hg Hm Hl Hgo).
    auto using gap_inv_update.
  - pose proof (handleKeyDown_fields key w) as K. cbv zeta in K.
    destruct K as (_ & _ & _ & Kv & Kd & _ & _ & Kp & Ko & _ & Kl & Kg & _).
    unfold meter_inv, gap_inv, low_inv in *.
    rewrite Kv, Kd, Kp, Ko, Kl, Kg. auto.
  - destruct (gameState w); auto.
  - destruct (gameState w); auto. apply initialState_inv.
Qed.

Lemma reachable_world_inv (evs : list Event) :
  world_inv (run evs initialWorld).
Proof.
  apply run_invariant_all.
  - apply step_world_inv.
  - apply initialState_inv.
Qed.

(** C1, as stated, fails: a crash subtracts 40 with no clamp at 0.  After
    382 frames of the straight run the meter is 15.6 and the player stands
    in lane 1; in frame 383 the meter recovers to 15.8, the check passes,
    the third barrier reaches depth 246.245 in lane 1, and the crash takes
    the meter to -24.2. *)
Lemma C1_meter_goes_negative :
  let w := run (straightRun 382) initialWorld in
  events_ok (straightRun 383) = true /\
  gameState w = playing /\ gameOver (st w) = false /\
  policeDistance (st w) = num:(15.6) /\
  player (beforeCollision middle (st w)) = mkPlayer 1 0 0 false 20 /\
  nth_error (obstacles (beforeCollision middle (st w))) 0
    = Some (mkObstacle 1 num:(246.245) barrier false) /\
  policeDistance (st (run (straightRun 383) initialWorld)) = num:(-24.2) /\
  ~ (0 <= policeDistance (st (run (straightRun 383) initialWorld))
     <= num:(100)).
Proof.
  vm_compute. repeat split; try reflexivity.
  intros [H _]. apply H. reflexivity.
Qed.

(** The upper bound that the test of the recovery gives: the recovery adds
    0.2 to a meter below 100 and nothing clamps the sum, so no step takes a
    meter of at most 100.2 above 100.2. *)
Lemma step_meter_top (e : Event) (w : World) :
  policeDistance (st w) <= num:(100.2) ->
  policeDistance (st (step e w)) <= num:(100.2).
Proof.
  intros H. destruct e; cbn [step].
  - destruct (loop_cases rnd w) as [-> | (_ & _ & ->)]; auto.
    cbn [st]. rewrite update_policeDistance, policeRecover_policeDistance.
    pose proof (count_nonneg
                  (hits (lane (playerPhysics (player (st w))))
                        (y (playerPhysics (player (st w)))))
                  (obstacles (beforeCollision rnd (st w)))) as Hc.
    destruct (policeDistance (st w) <? 100000) eqn:E;
      [apply Z.ltb_lt in E|]; lia.
  - pose proof (handleKeyDown_fields key w) as K. cbv zeta in K.
    destruct K as (_ & _ & _ & _ & _ & _ & _ & Kp & _).
    rewrite Kp. exact H.
  - destruct (gameState w); auto.
  - destruct (gameState w); auto. vm_compute. discriminate.
Qed.

Lemma reachable_meter_top (evs : list Event) :
  policeDistance (st (run evs initialWorld)) <= num:(100.2).
Proof.
  apply (run_invariant_all (fun w => policeDistance (st w) <= num:(100.2))).
  - apply step_meter_top.
  - vm_compute. discriminate.
Qed.

(** C1 (amended).  In every world reached from the initial one the pursuit
    meter is at most 100.2 and at least -80, and at least -40 while the run
    is not over.  The recovery adds 0.2 whenever the meter is below 100 and
    nothing clamps the sum, so the bound the code keeps is 100 + 0.2 and not
    100; and a crash subtracts 40 even when that takes the meter below 0,
    nothing clamps the difference either. *)
Theorem C1_meter_bounds :
  (forall evs : list Event,
      num:(-80) <= policeDistance (st (run evs initialWorld)) <= num:(100.2) /\
      (gameOver (st (run evs initialWorld)) = false ->
       num:(-40) <= policeDistance (st (run evs initialWorld)))) /\
  (forall s : State,
      policeDistance (policeRecover s)
      = if policeDistance s <? num:(100)
        then policeDistance s + num:(0.2) else policeDistance s) /\
  (forall s : State,
      policeDistance (crash s) = policeDistance s - num:(40)) /\
  (forall (rnd : Rand) (s : State),
      policeDistance (update rnd s)
      = policeDistance (policeRecover s)
        - num:(40) * count (hits (lane (playerPhysics (player s)))
                                 (y (playerPhysics (player s))))
                           (obstacles (beforeCollision rnd s))).
Proof.
  repeat apply conj.
  - intros evs.
    destruct (reachable_world_inv evs) as (_ & _ & (Hl & Hl')).
    pose proof (reachable_meter_top evs) as Ht.
    split; [lia|]. intros Hg. specialize (Hl Hg). lia.
  - apply policeRecover_policeDistance.
  - reflexivity.
  - apply update_policeDistance.
Qed.

(** The straight run after its third crash, as an instance. *)
Lemma C1_meter_bounds_witness :
  num:(-40) <= policeDistance (st (run (straightRun 383) initialWorld)).
Proof.
  apply (proj1 C1_meter_bounds (straightRun 383)). vm_compute. reflexivity.
Defined.

(** * Further properties: the jump *)

Lemma jumpHeight_succ (n : Z) :
  jumpHeight (n + 1) = jumpHeight n + (JUMP_FORCE + GRAVITY * n).
Proof. unfold jumpHeight, JUMP_FORCE, GRAVITY. lia. Qed.

Lemma jumpHeight_sign (n : Z) :
  0 <= n -> (jumpHeight (n + 1) < 0 <-> n <= 49).
Proof.
  intros H.
  assert (jumpHeight (n + 1) = 300 * ((n + 1) * (n - 50))) as ->
    by (unfold jumpHeight; lia).
  destruct (Z_le_gt_dec n 49); split; intros; try lia; nia.
Qed.

Lemma jumpHeight_range (n : Z) :
  0 <= n <= 51 -> num:(-195) <= jumpHeight n <= 0.
Proof.
  intros H.
  assert (jumpHeight n = 300 * (n * (n - 51))) as ->
    by (unfold jumpHeight; lia).
  split; [|nia].
  assert (0 <= (n - 25) * (n - 26))
    by (destruct (Z_le_gt_dec n 25); nia).
  lia.
Qed.

Lemma playerPhysics_inv (p : Player) :
  player_inv p -> player_inv (playerPhysics p).
Proof.
  unfold player_inv, playerPhysics. intros (Hg & Hj).
  destruct (isJumping p) eqn:E;
    [|split; [intros _; now apply Hg | intros H; congruence]].
  destruct (Hj eq_refl) as (n & Hn & Hv & Hy). cbv zeta.
  assert (y p + vy p = jumpHeight (n + 1)) as Hs
    by (rewrite jumpHeight_succ, Hy, Hv; reflexivity).
  rewrite Hs.
  pose proof (jumpHeight_sign n (proj1 Hn)) as Hsign.
  destruct (0 <=? jumpHeight (n + 1)) eqn:El;
    [apply Z.leb_le in El | apply Z.leb_gt in El];
    cbn [isJumping y vy]; split; try discriminate; auto.
  intros _. exists (n + 1). unfold GRAVITY in *. repeat split; lia.
Qed.

Lemma update_player_inv (rnd : Rand) (s : State) :
  player_inv (player s) -> player_inv (player (update rnd s)).
Proof.
  intros H. apply playerPhysics_inv in H.
  rewrite update_player. cbv zeta. now destruct (0 <? _).
Qed.

Lemma handleKeyDown_player_inv (key : string) (w : World) :
  player_inv (player (st w)) ->
  player_inv (player (st (handleKeyDown key w))).
Proof.
  unfold handleKeyDown. intros H. destruct (gameState w); auto.
  destruct (key_in key ["ArrowLeft"; "a"]%string).
  { now destruct (0 <? lane (player (st w))). }
  destruct (key_in key ["ArrowRight"; "d"]%string).
  { now destruct (lane (player (st w)) <? LANE_COUNT - 1). }
  destruct (key_in key ["ArrowUp"; "w"; " "]%string); auto.
  destruct (isJumping (player (st w))) eqn:E; auto.
  destruct H as (Hg & _). cbn. split; [discriminate|]. intros _.
  exists 0. rewrite (Hg E). repeat split; try lia.
Qed.

Lemma step_player_inv (e : Event) (w : World) :
  player_inv (player (st w)) -> player_inv (player (st (step e w))).
Proof.
  intros H. destruct e; cbn [step].
  - destruct (loop_cases rnd w) as [-> | (_ & _ & ->)]; auto.
    cbn [st]. now apply update_player_inv.
  - now apply handleKeyDown_player_inv.
  - destruct (gameState w); auto.
  - destruct (gameState w); auto. cbn. split; [reflexivity | discriminate].
Qed.

(** X1.  The player is never below the ground and never far above it: in
    every world reached from the initial one the height [y] is at most 0 and
    at least -196, and it is exactly 0 whenever the player is not jumping. *)
Theorem X1_player_height :
  forall evs : list Event,
    num:(-196) <= y (player (st (run evs initialWorld))) <= 0 /\
    (isJumping (player (st (run evs initialWorld))) = false ->
     y (player (st (run evs initialWorld))) = 0).
Proof.
  intros evs.
  assert (player_inv (player (st (run evs initialWorld)))) as (Hg & Hj).
  { apply (run_invariant_all (fun w => player_inv (player (st w)))).
    - apply step_player_inv.
    - cbn. split; [reflexivity | discriminate]. }
  split; auto.
  destruct (isJumping _) eqn:E.
  - destruct (Hj eq_refl) as (n & Hn & _ & ->).
    assert (0 <= n <= 51) as Hn' by lia.
    pose proof (jumpHeight_range n Hn'). lia.
  - rewrite (Hg eq_refl). lia.
Qed.

(** The player of the straight run after five frames, as an instance. *)
Lemma X1_player_height_witness :
  y (player (st (run (straightRun 5) initialWorld))) = 0.
Proof.
  apply (proj2 (X1_player_height (straightRun 5))). vm_compute. reflexivity.
Defined.

Lemma iter_playerPhysics_jump (p : Player) (n : nat) :
  y p = 0 -> (n <= 50)%nat ->
  Nat.iter n playerPhysics (jump p)
  = mkPlayer (lane p) (jumpHeight (Z.of_nat n))
             (JUMP_FORCE + GRAVITY * Z.of_nat n) true (stumbleCooldown p).
Proof.
  intros Hy. induction n as [|n IH]; intros Hn.
  - cbn. unfold jump. rewrite Hy. reflexivity.
  - rewrite Nat.iter_succ, IH by lia.
    unfold playerPhysics. cbn [isJumping y vy lane stumbleCooldown]. cbv zeta.
    replace (Z.of_nat (S n)) with (Z.of_nat n + 1) by lia.
    rewrite jumpHeight_succ.
    pose proof (jumpHeight_sign (Z.of_nat n) (Nat2Z.is_nonneg n)) as Hs.
    rewrite jumpHeight_succ in Hs.
    destruct (0 <=? _) eqn:El;
      [apply Z.leb_le in El; lia | f_equal; unfold GRAVITY; lia].
Qed.

(** X2.  Every jump from the ground has the same course, whatever else
    happens in the game.  For [n] up to 50, [n] applications of the physics
    block after the jump key leave the player jumping, at a height between
    -196 and 0 that is above the clearance height of barriers (y < -50)
    exactly for [n] from 4 to 47, and too high to collect coins (y <= -100)
    exactly for [n] from 8 to 43; after 52 applications the player has
    landed, at height exactly 0. *)
Theorem X2_jump_course :
  forall p : Player,
    isJumping p = false -> y p = 0 ->
    (forall n : nat,
        (n <= 50)%nat ->
        isJumping (Nat.iter n playerPhysics (jump p)) = true /\
        num:(-196) <= y (Nat.iter n playerPhysics (jump p)) <= 0 /\
        (y (Nat.iter n playerPhysics (jump p)) < num:(-50)
         <-> (4 <= n <= 47)%nat) /\
        (y (Nat.iter n playerPhysics (jump p)) <= num:(-100)
         <-> (8 <= n <= 43)%nat)) /\
    isJumping (Nat.iter 52 playerPhysics (jump p)) = false /\
    y (Nat.iter 52 playerPhysics (jump p)) = 0.
Proof.
  intros p Hj Hy. split; [|split].
  - intros n Hn. rewrite (iter_playerPhysics_jump p n Hy Hn).
    cbn [isJumping y]. split; [reflexivity|].
    assert (0 <= Z.of_nat n <= 51) as Hn' by lia.
    pose proof (jumpHeight_range (Z.of_nat n) Hn') as Hr.
    split; [lia|]. unfold jumpHeight. split; split; intros; nia.
  - rewrite 2!Nat.iter_succ, (iter_playerPhysics_jump p 50 Hy (le_n _)).
    vm_compute. reflexivity.
  - rewrite 2!Nat.iter_succ, (iter_playerPhysics_jump p 50 Hy (le_n _)).
    vm_compute. reflexivity.
Qed.

(** The player of the initial state, as an instance. *)
Lemma X2_jump_course_witness :
  isJumping (Nat.iter 52 playerPhysics (jump initialPlayer)) = false /\
  y (Nat.iter 52 playerPhysics (jump initialPlayer)) = 0.
Proof.
  apply (X2_jump_course initialPlayer eq_refl eq_refl).
Defined.

(** * Further properties: speed, distance and score *)

Lemma run_snoc (evs : list Event) (e : Event) (w : World) :
  run (evs ++ [e]) w = step e (run evs w).
Proof.
  revert w. induction evs as [|e' evs IH]; intros w; cbn [app run]; auto.
Qed.

Lemma update_score (rnd : Rand) (s : State) :
  score (update rnd s)
  = floor_div (distance s + (speed s + SPEED_INCREMENT)) 10.
Proof.
  rewrite update_eq.
  destruct (collisionItems_fields (collisionObstacles (beforeCollision rnd s)))
    as (_ & _ & H1 & _).
  destruct (collisionObstacles_fields (beforeCollision rnd s))
    as (_ & _ & H2 & _).
  destruct (beforeCollision_fields rnd s) as (_ & _ & H3 & _).
  now rewrite H1, H2, H3.
Qed.

Lemma update_motion_inv (rnd : Rand) (s : State) :
  motion_inv s -> motion_inv (update rnd s).
Proof.
  intros (n & Hn & Hv & Hd & _).
  destruct (update_motion rnd s) as (Ev & Ed & _).
  exists (n + 1). rewrite Ev, Ed, update_score.
  unfold SPEED_INITIAL, SPEED_INCREMENT in *.
  repeat split; try lia.
Qed.

Lemma step_motion_hud_inv (e : Event) (w : World) :
  motion_inv (st w) /\ hud_inv w ->
  motion_inv (st (step e w)) /\ hud_inv (step e w).
Proof.
  intros (Hm & Hs & Hc). destruct e; cbn [step].
  - destruct (loop_cases rnd w) as [-> | (_ & _ & ->)]; [now repeat split|].
    unfold hud_inv. cbn [st hudScore hudCoins].
    split; [now apply update_motion_inv|].
    rewrite update_score, update_coins.
    pose proof (count_nonneg
                  (collects (lane (playerPhysics (player (st w))))
                            (y (playerPhysics (player (st w)))))
                  (items (beforeCollision rnd (st w)))).
    cbn [score coins updateSpeed]. split; [reflexivity | lia].
  - pose proof (handleKeyDown_fields key w) as K. cbv zeta in K.
    destruct K as (_ & K1 & K2 & Kv & Kd & Ks & Kc & _).
    unfold motion_inv, hud_inv in *. rewrite K1, K2, Kv, Kd, Ks, Kc. auto.
  - destruct (gameState w); now repeat split.
  - destruct (gameState w); try now repeat split.
    split; [exists 0 | split]; cbn; repeat split; lia.
Qed.

Lemma reachable_motion_hud_inv (evs : list Event) :
  motion_inv (st (run evs initialWorld)) /\ hud_inv (run evs initialWorld).
Proof.
  apply (run_invariant_all (fun w => motion_inv (st w) /\ hud_inv w)).
  - apply step_motion_hud_inv.
  - split; [exists 0 | split]; cbn; repeat split; lia.
Qed.

(** X3.  The score follows the distance, and the screen follows the game
    state.  In every world reached from the initial one the speed is at
    least its initial value 12, the distance is not negative, the score is
    the floor of the distance over 10, the score on screen equals it, and
    the coins on screen are non-negative and at most the coins collected. *)
Theorem X3_score_follows_distance :
  forall evs : list Event,
    SPEED_INITIAL <= speed (st (run evs initialWorld)) /\
    0 <= distance (st (run evs initialWorld)) /\
    score (st (run evs initialWorld))
    = floor_div (distance (st (run evs initialWorld))) 10 /\
    hudScore (run evs initialWorld) = score (st (run evs initialWorld)) /\
    0 <= hudCoins (run evs initialWorld)
      <= coins (st (run evs initialWorld)).
Proof.
  intros evs.
  destruct (reachable_motion_hud_inv evs)
    as ((n & Hn & Hv & Hd & Hs) & Hh & Hc).
  unfold SPEED_INITIAL, SPEED_INCREMENT in *.
  split; [lia|]. split; [nia|]. auto.
Qed.

Lemma floor_div_mono (a b : num) : a <= b -> floor_div a 10 <= floor_div b 10.
Proof. unfold floor_div. intros H. apply Z.div_le_mono; lia. Qed.

Lemma step_monotone (e : Event) (w : World) :
  motion_inv (st w) -> is_restart e = false ->
  speed (st w) <= speed (st (step e w)) /\
  distance (st w) <= distance (st (step e w)) /\
  score (st w) <= score (st (step e w)) /\
  coins (st w) <= coins (st (step e w)).
Proof.
  intros (n & Hn & Hv & Hd & Hs) He. destruct e; cbn [step];
    try discriminate.
  - destruct (loop_cases rnd w) as [-> | (_ & _ & ->)]; [lia|].
    cbn [st]. destruct (update_motion rnd (st w)) as (Ev & Ed & _).
    rewrite Ev, Ed, update_score, update_coins, Hs.
    pose proof (count_nonneg
                  (collects (lane (playerPhysics (player (st w))))
                            (y (playerPhysics (player (st w)))))
                  (items (beforeCollision rnd (st w)))).
    unfold SPEED_INITIAL, SPEED_INCREMENT in *.
    repeat split; try lia. apply floor_div_mono. lia.
  - pose proof (handleKeyDown_fields key w) as K. cbv zeta in K.
    destruct K as (_ & _ & _ & Kv & Kd & Ks & Kc & _). lia.
  - destruct (gameState w); cbn [st]; lia.
Qed.

(** X4.  Between restarts nothing goes backwards: from any world reached
    from the initial one, through any sequence of frames, keys and start
    events, the speed, the distance, the score and the coins never
    decrease. *)
Theorem X4_no_decrease_between_restarts :
  forall pre evs : list Event,
    no_restart evs = true ->
    speed (st (run pre initialWorld))
      <= speed (st (run evs (run pre initialWorld))) /\
    distance (st (run pre initialWorld))
      <= distance (st (run evs (run pre initialWorld))) /\
    score (st (run pre initialWorld))
      <= score (st (run evs (run pre initialWorld))) /\
    coins (st (run pre initialWorld))
      <= coins (st (run evs (run pre initialWorld))).
Proof.
  intros pre evs. revert pre. induction evs as [|e evs IH]; intros pre Hn.
  - cbn [run]. lia.
  - cbn [no_restart forallb] in Hn. apply andb_true_iff in Hn as [He Hn].
    apply negb_true_iff in He. cbn [run]. rewrite <- run_snoc.
    specialize (IH (pre ++ [e]) Hn). rewrite run_snoc in *.
    destruct (reachable_motion_hud_inv pre) as (Hm & _).
    pose proof (step_monotone e (run pre initialWorld) Hm He). lia.
Qed.

(** The frames after the first crash of the straight run, as an instance. *)
Lemma X4_no_decrease_witness :
  distance (st (run (straightRun 204) initialWorld))
  <= distance (st (run (repeat (Frame middle) 100)
                       (run (straightRun 204) initialWorld))).
Proof.
  apply (X4_no_decrease_between_restarts (straightRun 204)
           (repeat (Frame middle) 100)).
  vm_compute. reflexivity.
Defined.

(** * Further properties: the obstacle pool *)

Lemma Forall_filter_true {A : Type} (f : A -> bool) (l : list A) :
  Forall (fun a => f a = true) (filter f l).
Proof. apply Forall_forall. intros a Ha. now apply filter_In in Ha. Qed.

Lemma update_pool_inv (rnd : Rand) (s : State) :
  pool_inv s -> pool_inv (update rnd s).
Proof.
  intros (Hd & _ & _). unfold pool_inv.
  destruct (update_motion rnd s) as (_ & Ed & El).
  rewrite Ed, El, beforeCollision_lastSpawnZ, spawnDue_beforeCheck,
    update_obstacles, update_items, beforeCollision_obstacles,
    beforeCollision_items.
  split; [|split].
  - destruct (800000 <? _) eqn:E; [|apply Z.ltb_ge in E]; lia.
  - apply Forall_map.
    eapply Forall_impl; [|apply Forall_filter_true]. cbv beta.
    intros o Ho. apply Z.ltb_lt in Ho. now destruct (hits _ _ o).
  - apply Forall_map.
    eapply Forall_impl; [|apply Forall_filter_true]. cbv beta.
    intros c Hc. apply Z.ltb_lt in Hc. now destruct (collects _ _ c).
Qed.

Lemma step_pool_inv (e : Event) (w : World) :
  pool_inv (st w) -> pool_inv (st (step e w)).
Proof.
  intros H. destruct e; cbn [step].
  - destruct (loop_cases rnd w) as [-> | (_ & _ & ->)]; auto.
    cbn [st]. now apply update_pool_inv.
  - pose proof (handleKeyDown_fields key w) as K. cbv zeta in K.
    destruct K as (_ & _ & _ & _ & Kd & _ & _ & _ & Ko & Ki & Kl & _).
    unfold pool_inv in *. now rewrite Kd, Ko, Ki, Kl.
  - destruct (gameState w); auto.
  - destruct (gameState w); auto.
    unfold pool_inv. cbn. repeat split; try constructor. discriminate.
Qed.

Lemma reachable_pool_inv (evs : list Event) :
  pool_inv (st (run evs initialWorld)).
Proof.
  apply (run_invariant_all (fun w => pool_inv (st w))).
  - apply step_pool_inv.
  - unfold pool_inv. cbn. repeat split; try constructor. discriminate.
Qed.

(** Obstacles at least 799 apart within a window of depth less than 2397
    are at most three. *)
Lemma spaced_length (os : list Obstacle) :
  spaced os ->
  Forall (fun o => num:(-200) < o_z o <= num:(1988)) os ->
  (List.length os <= 3)%nat.
Proof.
  unfold spaced. intros Hs Hr.
  destruct os as [|a [|b [|c [|d os]]]]; cbn [List.length]; try lia.
  exfalso.
  apply StronglySorted_inv in Hs as (Hs & Ha).
  apply StronglySorted_inv in Hs as (Hs & Hb).
  apply StronglySorted_inv in Hs as (Hs & Hc).
  inversion Ha as [|? ? Hab _]; subst.
  inversion Hb as [|? ? Hbc _]; subst.
  inversion Hc as [|? ? Hcd _]; subst.
  inversion Hr as [|? ? Hra Hr1]; subst.
  inversion Hr1 as [|? ? _ Hr2]; subst.
  inversion Hr2 as [|? ? _ Hr3]; subst.
  inversion Hr3 as [|? ? Hrd _]; subst.
  lia.
Qed.

(** X5.  In every world reached from the initial one the obstacle pool holds
    at most three obstacles, in the order of their depth, each at least 799
    behind the one before, and each at a depth above -200 and at most 1988;
    and the distance travelled since the last spawn is between 0 and 800, so
    a spawn is never overdue at the end of a tick. *)
Theorem X5_obstacle_pool_bounded :
  forall evs : list Event,
    (List.length (obstacles (st (run evs initialWorld))) <= 3)%nat /\
    spaced (obstacles (st (run evs initialWorld))) /\
    Forall (fun o => num:(-200) < o_z o <= num:(1988))
           (obstacles (st (run evs initialWorld))) /\
    0 <= distance (st (run evs initialWorld))
         - lastSpawnZ (st (run evs initialWorld)) <= num:(800).
Proof.
  intros evs.
  destruct (reachable_world_inv evs) as (_ & (Hv & Hd & Hf & Hs) & _).
  destruct (reachable_pool_inv evs) as (Hp & Ho & _).
  assert (Forall (fun o => -200000 < o_z o <= 1988000)
                 (obstacles (st (run evs initialWorld)))) as Hr.
  { apply Forall_forall. intros o Hin.
    rewrite Forall_forall in Hf, Ho.
    specialize (Hf o Hin). specialize (Ho o Hin).
    unfold SPEED_INITIAL in Hv. cbv beta in *. lia. }
  repeat split; auto; try lia.
  now apply spaced_length.
Qed.

(** X6.  From every world reached from the initial one, at most one obstacle
    hits the player in a tick, so a tick takes at most 40 off the pursuit
    meter and adds at most 0.2 to it. *)
Theorem X6_one_crash_per_tick :
  forall (evs : list Event) (rnd : Rand),
    count (hits (lane (playerPhysics (player (st (run evs initialWorld)))))
                (y (playerPhysics (player (st (run evs initialWorld))))))
          (obstacles (beforeCollision rnd (st (run evs initialWorld)))) <= 1 /\
    policeDistance (st (run evs initialWorld)) - num:(40)
      <= policeDistance (update rnd (st (run evs initialWorld)))
      <= policeDistance (st (run evs initialWorld)) + num:(0.2).
Proof.
  intros evs rnd.
  destruct (reachable_world_inv evs) as (_ & Hg & _).
  apply (gap_inv_beforeCollision rnd) in Hg.
  destruct Hg as (_ & _ & _ & Hs).
  pose proof (count_hits_spaced
                (lane (playerPhysics (player (st (run evs initialWorld)))))
                (y (playerPhysics (player (st (run evs initialWorld)))))
                _ Hs) as Hc1.
  pose proof (count_nonneg
                (hits (lane (playerPhysics (player (st (run evs initialWorld)))))
                      (y (playerPhysics (player (st (run evs initialWorld))))))
                (obstacles (beforeCollision rnd (st (run evs initialWorld)))))
    as Hc0.
  rewrite update_policeDistance, policeRecover_policeDistance.
  destruct (_ <? 100000); lia.
Qed.

(** * Further properties: the end of a run *)

Lemma frame_ends_iff (evs : list Event) (rnd : Rand) :
  gameState (run evs initialWorld) = playing ->
  (gameState (step (Frame rnd) (run evs initialWorld)) = gameover <->
   policeDistance (policeRecover (st (run evs initialWorld))) <= 0).
Proof.
  intros Hp. pose proof (reachable_phase_inv evs) as Hinv.
  set (w := run evs initialWorld) in *. cbn [step].
  assert (gameOver (st w) = false) as Hg.
  { destruct (gameOver (st w)) eqn:E; auto.
    assert (gameState w = gameover) by (apply Hinv, E). congruence. }
  unfold loop. rewrite Hg, Hp. cbn [gameState]. unfold caught.
  rewrite beforeCheck_policeDistance.
  destruct (_ <=? 0) eqn:E; [apply Z.leb_le in E | apply Z.leb_gt in E];
    split; intros; auto; try discriminate; lia.
Qed.

(** X7.  A playing run ends in the frame after a crash has left the pursuit
    meter at -0.2 or below, and not before: a frame that starts in the phase
    'playing' with the meter at or below -0.2 ends in the phase 'gameover',
    and a frame that starts with the meter at 0 or above stays in the phase
    'playing', whatever happens in that frame. *)
Theorem X7_negative_meter_ends_next_frame :
  forall (evs : list Event) (rnd : Rand),
    gameState (run evs initialWorld) = playing ->
    (policeDistance (st (run evs initialWorld)) <= num:(-0.2) ->
     gameState (step (Frame rnd) (run evs initialWorld)) = gameover) /\
    (0 <= policeDistance (st (run evs initialWorld)) ->
     gameState (step (Frame rnd) (run evs initialWorld)) = playing).
Proof.
  intros evs rnd Hp.
  pose proof (frame_ends_iff evs rnd Hp) as Hi.
  rewrite policeRecover_policeDistance in Hi. split.
  - intros H. apply Hi.
    destruct (_ <? 100000) eqn:E; [apply Z.ltb_lt in E | apply Z.ltb_ge in E];
      lia.
  - intros H.
    assert (gameState (step (Frame rnd) (run evs initialWorld)) <> gameover)
      as Hn.
    { intros Hg. apply Hi in Hg.
      destruct (_ <? 100000) eqn:E;
        [apply Z.ltb_lt in E | apply Z.ltb_ge in E]; lia. }
    cbn [step] in *.
    destruct (loop_cases rnd (run evs initialWorld))
      as [E | (_ & _ & E)]; rewrite E in *; auto.
    cbn [gameState] in *. now destruct (caught _).
Qed.

(** The frame after the third crash of the straight run, as an instance. *)
Lemma X7_negative_meter_witness :
  gameState (step (Frame middle) (run (straightRun 383) initialWorld))
  = gameover.
Proof.
  assert (gameState (run (straightRun 383) initialWorld) = playing) as Hp
    by (vm_compute; reflexivity).
  apply (proj1 (X7_negative_meter_ends_next_frame
                  (straightRun 383) middle Hp)).
  vm_compute. discriminate.
Defined.

Lemma update_stumbleCooldown (rnd : Rand) (s : State) :
  stumbleCooldown (player (update rnd s))
  = if 0 <? count (hits (lane (playerPhysics (player s)))
                        (y (playerPhysics (player s))))
                  (obstacles (beforeCollision rnd s))
    then 20 else stumbleCooldown (player s).
Proof.
  rewrite update_player. cbv zeta.
  destruct (0 <? _); [reflexivity | apply playerPhysics_stumbleCooldown].
Qed.

Lemma update_crash_inv (rnd : Rand) (s : State) :
  gameOver s = false -> crash_inv s -> crash_inv (update rnd s).
Proof.
  unfold crash_inv. intros Hg (Hs & H0 & _).
  rewrite update_stumbleCooldown, update_gameOver, update_policeDistance,
    policeRecover_policeDistance, Hg.
  unfold caught. rewrite beforeCheck_policeDistance,
    policeRecover_policeDistance.
  pose proof (count_nonneg
                (hits (lane (playerPhysics (player s)))
                      (y (playerPhysics (player s))))
                (obstacles (beforeCollision rnd s))) as Hc.
  set (c := count _ _) in *. cbn [orb].
  destruct (0 <? c) eqn:Ec; [apply Z.ltb_lt in Ec | apply Z.ltb_ge in Ec].
  - split; [now right|]. split; [discriminate|].
    intros H. apply Z.leb_le in H. lia.
  - assert (c = 0) as -> by lia.
    split; [exact Hs|]. split.
    + intros H. destruct (H0 H) as (-> & _). cbn. split; reflexivity.
    + intros H. apply Z.leb_le in H. lia.
Qed.

Lemma step_crash_inv (e : Event) (w : World) :
  crash_inv (st w) -> crash_inv (st (step e w)).
Proof.
  intros H. destruct e; cbn [step].
  - destruct (loop_cases rnd w) as [-> | (Hg & _ & ->)]; auto.
    cbn [st]. now apply update_crash_inv.
  - pose proof (handleKeyDown_fields key w) as K. cbv zeta in K.
    destruct K as (_ & _ & _ & _ & _ & _ & _ & Kp & _ & _ & _ & Kg & Ks & _).
    unfold crash_inv in *. now rewrite Kp, Kg, Ks.
  - destruct (gameState w); auto.
  - destruct (gameState w); auto.
    unfold crash_inv. cbn. repeat split; auto; discriminate.
Qed.

(** X8.  A run never ends before the player has crashed.  In every world
    reached from the initial one stumbleCooldown is 0 or 20; while it is 0,
    which is until the first crash of the run, the pursuit meter is exactly
    100, the run is not over and the phase is not 'gameover'; and whenever the
    run is over the meter is at or below 0. *)
Theorem X8_no_end_without_crash :
  forall evs : list Event,
    (stumbleCooldown (player (st (run evs initialWorld))) = 0 \/
     stumbleCooldown (player (st (run evs initialWorld))) = 20) /\
    (stumbleCooldown (player (st (run evs initialWorld))) = 0 ->
     policeDistance (st (run evs initialWorld)) = num:(100) /\
     gameOver (st (run evs initialWorld)) = false /\
     gameState (run evs initialWorld) <> gameover) /\
    (gameOver (st (run evs initialWorld)) = true ->
     policeDistance (st (run evs initialWorld)) <= 0).
Proof.
  intros evs.
  assert (crash_inv (st (run evs initialWorld))) as (Hs & H0 & Hg).
  { apply (run_invariant_all (fun w => crash_inv (st w))).
    - apply step_crash_inv.
    - unfold crash_inv. cbn. repeat split; auto; discriminate. }
  split; [exact Hs|]. split; [|exact Hg].
  intros H. destruct (H0 H) as (Hd & Hf). repeat split; auto.
  intros Hp. apply (reachable_phase_inv evs) in Hp. congruence.
Qed.

(** The straight run just before its first crash, as an instance. *)
Lemma X8_no_end_without_crash_witness :
  policeDistance (st (run (straightRun 203) initialWorld)) = num:(100) /\
  gameOver (st (run (straightRun 203) initialWorld)) = false /\
  gameState (run (straightRun 203) initialWorld) <> gameover.
Proof.
  apply (proj1 (proj2 (X8_no_end_without_crash (straightRun 203)))).
  vm_compute. reflexivity.
Defined.

(** * Further properties: keys and buttons *)

Lemma key_jump_not_lane (key : string) :
  key_in key ["ArrowUp"; "w"; " "]%string = true ->
  key_in key ["ArrowLeft"; "a"]%string = false /\
  key_in key ["ArrowRight"; "d"]%string = false.
Proof.
  unfold key_in. cbn [existsb]. intros H.
  repeat (apply orb_true_iff in H as [H | H];
          [apply String.eqb_eq in H; subst; split; reflexivity|]).
  discriminate.
Qed.

Lemma handleKeyDown_left_eq (key : string) (w : World) :
  gameState w = playing -> key_in key ["ArrowLeft"; "a"]%string = true ->
  handleKeyDown key w
  = if 0 <? lane (player (st w))
    then mkWorld playing (hudScore w) (hudCoins w)
           (set_player (st w)
              (set_lane (player (st w)) (lane (player (st w)) - 1)))
    else w.
Proof. intros Hp Hk. unfold handleKeyDown. now rewrite Hp, Hk. Qed.

Lemma handleKeyDown_right_eq (key : string) (w : World) :
  gameState w = playing -> key_in key ["ArrowRight"; "d"]%string = true ->
  handleKeyDown key w
  = if lane (player (st w)) <? LANE_COUNT - 1
    then mkWorld playing (hudScore w) (hudCoins w)
           (set_player (st w)
              (set_lane (player (st w)) (lane (player (st w)) + 1)))
    else w.
Proof.
  intros Hp Hk. unfold handleKeyDown.
  now rewrite Hp, (key_right_not_left key Hk), Hk.
Qed.

Lemma handleKeyDown_jump_eq (key : string) (w : World) :
  gameState w = playing -> key_in key ["ArrowUp"; "w"; " "]%string = true ->
  handleKeyDown key w
  = if negb (isJumping (player (st w)))
    then mkWorld playing (hudScore w) (hudCoins w)
           (set_player (st w) (jump (player (st w))))
    else w.
Proof.
  intros Hp Hk. unfold handleKeyDown.
  destruct (key_jump_not_lane key Hk) as (Hl & Hr).
  now rewrite Hp, Hl, Hr, Hk.
Qed.

(** X9.  Lane keys undo each other away from the walls, and a second jump
    key is ignored: in a playing world with the player in a lane of
    {0, 1, 2}, a left key followed by a right key restores the world unless
    the player is in lane 0, a right key followed by a left key restores it
    unless the player is in lane 2, and a jump key pressed after a jump key
    changes nothing more. *)
Theorem X9_keys_round_trip :
  forall (w : World) (kl kr : string),
    gameState w = playing ->
    key_in kl ["ArrowLeft"; "a"]%string = true ->
    key_in kr ["ArrowRight"; "d"]%string = true ->
    (0 < lane (player (st w)) <= LANE_COUNT - 1 ->
     handleKeyDown kr (handleKeyDown kl w) = w) /\
    (0 <= lane (player (st w)) < LANE_COUNT - 1 ->
     handleKeyDown kl (handleKeyDown kr w) = w) /\
    (forall k1 k2 : string,
        key_in k1 ["ArrowUp"; "w"; " "]%string = true ->
        key_in k2 ["ArrowUp"; "w"; " "]%string = true ->
        handleKeyDown k2 (handleKeyDown k1 w) = handleKeyDown k1 w).
Proof.
  intros w kl kr Hp Hl Hr. unfold LANE_COUNT. repeat apply conj.
  - intros H. rewrite (handleKeyDown_left_eq kl w Hp Hl).
    assert ((0 <? lane (player (st w))) = true) as ->
      by (apply Z.ltb_lt; lia).
    rewrite handleKeyDown_right_eq by auto. unfold LANE_COUNT.
    destruct w as [g hs hc [v d sc c [l py pvy j sk] pd os it ls go]].
    cbn in *. subst g.
    assert ((l - 1 <? 2) = true) as -> by (apply Z.ltb_lt; lia).
    now replace (l - 1 + 1) with l by lia.
  - intros H. rewrite (handleKeyDown_right_eq kr w Hp Hr). unfold LANE_COUNT.
    assert ((lane (player (st w)) <? 3 - 1) = true) as ->
      by (apply Z.ltb_lt; lia).
    rewrite handleKeyDown_left_eq by auto.
    destruct w as [g hs hc [v d sc c [l py pvy j sk] pd os it ls go]].
    cbn in *. subst g.
    assert ((0 <? l + 1) = true) as -> by (apply Z.ltb_lt; lia).
    now replace (l + 1 - 1) with l by lia.
  - intros k1 k2 H1 H2. rewrite (handleKeyDown_jump_eq k1 w Hp H1).
    destruct (isJumping (player (st w))) eqn:E; cbn [negb].
    + rewrite (handleKeyDown_jump_eq k2 w Hp H2). now rewrite E.
    + now rewrite handleKeyDown_jump_eq by auto.
Qed.

(** The world at the end of [dodgeRun], the player in the middle lane, as an
    instance. *)
Lemma X9_keys_round_trip_witness :
  handleKeyDown "d" (handleKeyDown "a" (run dodgeRun initialWorld))
  = run dodgeRun initialWorld.
Proof.
  assert (gameState (run dodgeRun initialWorld) = playing) as Hp
    by (vm_compute; reflexivity).
  assert (0 < lane (player (st (run dodgeRun initialWorld)))
          <= LANE_COUNT - 1) as Hl
    by (vm_compute; split; [reflexivity | discriminate]).
  exact (proj1 (X9_keys_round_trip (run dodgeRun initialWorld) "a" "d"
                  Hp eq_refl eq_refl) Hl).
Defined.

(** X10.  A restart forgets the run before it: when a sequence of events has
    led to the phase 'gameover', the restart followed by any further events
    leads to the same world as those further events from the initial world;
    and outside the phase 'gameover' the restart does nothing, as the start
    button does nothing outside the phase 'start'. *)
Theorem X10_restart_replays_from_scratch :
  (forall evs1 evs2 : list Event,
      gameState (run evs1 initialWorld) = gameover ->
      run (evs1 ++ PlayAgain :: evs2) initialWorld = run evs2 initialWorld) /\
  (forall w : World, gameState w <> gameover -> step PlayAgain w = w) /\
  (forall w : World, gameState w <> start -> step TapToStart w = w).
Proof.
  repeat apply conj.
  - intros evs1 evs2 Hg.
    replace (evs1 ++ PlayAgain :: evs2) with ((evs1 ++ [PlayAgain]) ++ evs2)
      by (rewrite <- app_assoc; reflexivity).
    enough (run (evs1 ++ [PlayAgain]) initialWorld = initialWorld) as E.
    { revert E. generalize (evs1 ++ [PlayAgain]). intros l.
      revert evs2. generalize initialWorld at 1 3.
      induction l as [|e l IH]; intros w0 evs2 E; cbn [app run] in *.
      - now subst.
      - now apply IH. }
    rewrite run_snoc. cbn [step]. now rewrite Hg.
  - intros w H. cbn [step]. destruct (gameState w); congruence.
  - intros w H. cbn [step]. destruct (gameState w); congruence.
Qed.

(** The straight run, over after 384 frames, then a restart and a new
    straight run, as an instance. *)
Lemma X10_restart_witness :
  run (straightRun 384 ++ PlayAgain :: straightRun 10) initialWorld
  = run (straightRun 10) initialWorld.
Proof.
  assert (gameState (run (straightRun 384) initialWorld) = gameover) as Hg
    by (vm_compute; reflexivity).
  exact (proj1 X10_restart_replays_from_scratch
           (straightRun 384) (straightRun 10) Hg).
Defined.

(** * Further properties: the coin pool *)

Section SortedLists.

Variables (A : Type) (R : A -> A -> Prop).

Lemma sorted_filter (f : A -> bool) (l : list A) :
  StronglySorted R l -> StronglySorted R (filter f l).
Proof.
  induction 1 as [|a l Hl IH Ha]; cbn [filter].
  - constructor.
  - destruct (f a); auto. constructor; auto. now apply Forall_filter.
Qed.

Lemma sorted_app (l1 l2 : list A) :
  StronglySorted R l1 -> StronglySorted R l2 ->
  Forall (fun a => Forall (R a) l2) l1 ->
  StronglySorted R (l1 ++ l2).
Proof.
  induction 1 as [|a l Hl IH Ha]; intros H2 H12; cbn [app]; auto.
  inversion H12 as [|? ? Ha2 Hl2]; subst.
  constructor; auto. apply Forall_app. split; auto.
Qed.

End SortedLists.

Lemma coinsSpaced_map (g : Coin -> Coin) (d : num) (cs : list Coin) :
  (forall c, c_z (g c) = c_z c - d) -> coinsSpaced cs -> coinsSpaced (map g cs).
Proof.
  unfold coinsSpaced. intros Hg. induction 1 as [|a l Hl IH Ha]; cbn [map].
  - constructor.
  - constructor; auto. apply Forall_map.
    eapply Forall_impl; [|exact Ha]. cbv beta. intros b Hb.
    rewrite !Hg. lia.
Qed.

Lemma coinsSpaced_head (a : Coin) (cs : list Coin) (m : nat) (b : Coin) :
  coinsSpaced (a :: cs) -> nth_error cs m = Some b ->
  c_z a + num:(150) * (Z.of_nat m + 1) <= c_z b.
Proof.
  unfold coinsSpaced. revert a cs. induction m as [|m IH]; intros a cs Hs Hb.
  - destruct cs as [|c cs]; [discriminate|]. injection Hb as ->.
    apply StronglySorted_inv in Hs as (_ & Ha).
    inversion Ha; subst. lia.
  - destruct cs as [|c cs]; [discriminate|]. cbn [nth_error] in Hb.
    apply StronglySorted_inv in Hs as (Hs & Ha).
    specialize (IH c cs Hs Hb). inversion Ha; subst. lia.
Qed.

Lemma coinsSpaced_nth (cs : list Coin) (i m : nat) (a b : Coin) :
  coinsSpaced cs ->
  nth_error cs i = Some a -> nth_error cs (i + S m) = Some b ->
  c_z a + num:(150) * (Z.of_nat m + 1) <= c_z b.
Proof.
  revert cs. induction i as [|i IH]; intros cs Hs Ha Hb.
  - destruct cs as [|c cs]; [discriminate|]. injection Ha as ->.
    cbn [Nat.add nth_error] in Hb. now apply (coinsSpaced_head a cs m b).
  - destruct cs as [|c cs]; [discriminate|].
    cbn [Nat.add nth_error] in *.
    apply StronglySorted_inv in Hs as (Hs & _). now apply (IH cs).
Qed.

Lemma filter_all {A : Type} (f : A -> bool) (l : list A) :
  Forall (fun a => f a = true) l -> filter f l = l.
Proof.
  induction 1 as [|a l Ha Hl IH]; cbn [filter]; auto.
  now rewrite Ha, IH.
Qed.

(** Cleanup removes coins from the front of the pool only. *)
Lemma cleanup_coins_suffix (cs : list Coin) :
  coinsSpaced cs ->
  exists k : nat, filter (fun i => num:(-200) <? c_z i) cs = skipn k cs.
Proof.
  unfold coinsSpaced. induction 1 as [|a l Hl IH Ha].
  - now exists 0%nat.
  - cbn [filter]. destruct (-200000 <? c_z a) eqn:E.
    + exists 0%nat. cbn [skipn]. f_equal. apply filter_all.
      eapply Forall_impl; [|exact Ha]. cbv beta. intros b Hb.
      apply Z.ltb_lt in E. apply Z.ltb_lt. lia.
    + destruct IH as (k & Hk). now exists (S k).
Qed.

Lemma coinsThirds_skipn (k : nat) (cs : list Coin) :
  coinsThirds cs -> coinsThirds (skipn k cs).
Proof.
  unfold coinsThirds. intros H i a b Ha Hb.
  rewrite nth_error_skipn in Ha, Hb.
  apply (H (k + i)%nat); auto. now rewrite <- Nat.add_assoc.
Qed.

Lemma coinsThirds_map (g : Coin -> Coin) (d : num) (cs : list Coin) :
  (forall c, c_z (g c) = c_z c - d) -> coinsThirds cs -> coinsThirds (map g cs).
Proof.
  unfold coinsThirds. intros Hg H i a b Ha Hb.
  rewrite nth_error_map in Ha, Hb.
  destruct (nth_error cs i) as [a0|] eqn:Ea; [|discriminate].
  destruct (nth_error cs (i + 3)) as [b0|] eqn:Eb; [|discriminate].
  injection Ha as <-. injection Hb as <-. rewrite !Hg.
  specialize (H i a0 b0 Ea Eb). lia.
Qed.

(** Appending a new run of three coins at depths 2000, 2150 and 2300 to
    coins that are all closer than 1501. *)
Lemma coinsThirds_spawn (cs : list Coin) (l : Z) :
  coinsSpaced cs -> coinsThirds cs ->
  Forall (fun c => c_z c <= num:(1501)) cs ->
  coinsThirds (cs ++ [mkCoin l num:(2000) true 0;
                      mkCoin l num:(2150) true 0;
                      mkCoin l num:(2300) true 0]).
Proof.
  unfold coinsThirds. intros Hs Ht Hb i a b Ha Hb'.
  set (new := [mkCoin l 2000000 true 0; mkCoin l 2150000 true 0;
               mkCoin l 2300000 true 0]) in *.
  destruct (Nat.lt_ge_cases (i + 3) (List.length cs)) as [Hlt | Hge].
  - rewrite nth_error_app1 in Ha, Hb' by lia. now apply (Ht i).
  - destruct (Nat.lt_ge_cases i (List.length cs)) as [Hi | Hi].
    + rewrite nth_error_app1 in Ha by lia.
      rewrite nth_error_app2 in Hb' by lia.
      (* the last coin of the old pool *)
      destruct (nth_error cs (List.length cs - 1)) as [c|] eqn:Ec;
        [|apply nth_error_None in Ec; lia].
      assert (c_z c <= 1501000) as Hc.
      { rewrite Forall_forall in Hb. apply Hb.
        now apply nth_error_In in Ec. }
      assert (c_z a + 150000 * Z.of_nat (List.length cs - 1 - i) <= c_z c)
        as Hac.
      { destruct (List.length cs - 1 - i)%nat as [|m] eqn:Em.
        - replace (List.length cs - 1)%nat with i in Ec by lia.
          rewrite Ha in Ec. injection Ec as ->. lia.
        - replace (List.length cs - 1)%nat with (i + S m)%nat in Ec by lia.
          pose proof (coinsSpaced_nth cs i m a c Hs Ha Ec). lia. }
      destruct (i + 3 - List.length cs)%nat as [|[|[|j]]] eqn:Ej;
        cbn in Hb'; try (injection Hb' as <-; cbn [c_z]; lia).
      now destruct j.
    + rewrite nth_error_app2 in Ha, Hb' by lia.
      destruct (i - List.length cs)%nat as [|[|[|j]]] eqn:Ej;
        replace (i + 3 - List.length cs)%nat
          with (S (S (S (i - List.length cs)))) in Hb' by lia;
        rewrite Ej in Hb'; cbn in Hb'; try discriminate;
        now destruct j.
Qed.

Lemma coin_inv_beforeCollision (rnd : Rand) (s : State) :
  gap_inv s -> coin_inv s -> coin_inv (beforeCollision rnd s).
Proof.
  unfold gap_inv, coin_inv. intros (Hv & Hd & _ & _) (Hf & Hs & Ht).
  rewrite beforeCollision_speed, beforeCollision_distance,
    beforeCollision_lastSpawnZ, beforeCollision_items, spawnDue_beforeCheck.
  unfold SPEED_INITIAL, SPEED_INCREMENT in *.
  assert (forall c, c_z (moveCoin (speed s + 5) c) = c_z c - (speed s + 5))
    as Hmove by reflexivity.
  destruct (800000 <? distance s + (speed s + 5) - lastSpawnZ s) eqn:Hdue;
    [apply Z.ltb_lt in Hdue | apply Z.ltb_ge in Hdue; rewrite app_nil_r].
  - assert (Forall (fun c => c_z c <= 1501000) (items s)) as Hold.
    { eapply Forall_impl; [|exact Hf]. cbv beta. intros c Hc. lia. }
    repeat apply conj.
    + apply Forall_filter, Forall_map, Forall_app. split.
      * eapply Forall_impl; [|exact Hf]. cbv beta. intros c Hc.
        cbn [moveCoin c_z]. lia.
      * repeat constructor; cbn [moveCoin c_z]; lia.
    + apply sorted_filter. apply (coinsSpaced_map _ (speed s + 5)); auto.
      apply sorted_app; auto.
      * repeat constructor; cbn [c_z]; lia.
      * eapply Forall_impl; [|exact Hold]. cbv beta. intros c Hc.
        repeat constructor; cbn [c_z]; lia.
    + destruct (cleanup_coins_suffix
                  (map (moveCoin (speed s + 5))
                     (items s ++ [mkCoin (spawnCoinLane rnd) 2000000 true 0;
                                  mkCoin (spawnCoinLane rnd) 2150000 true 0;
                                  mkCoin (spawnCoinLane rnd) 2300000 true 0])))
        as (k & ->).
      * apply (coinsSpaced_map _ (speed s + 5)); auto.
        apply sorted_app; auto.
        -- repeat constructor; cbn [c_z]; lia.
        -- eapply Forall_impl; [|exact Hold]. cbv beta. intros c Hc.
           repeat constructor; cbn [c_z]; lia.
      * apply coinsThirds_skipn.
        apply (coinsThirds_map _ (speed s + 5)); auto.
        now apply coinsThirds_spawn.
  - repeat apply conj.
    + apply Forall_filter, Forall_map.
      eapply Forall_impl; [|exact Hf]. cbv beta. intros c Hc.
      cbn [moveCoin c_z]. lia.
    + apply sorted_filter. now apply (coinsSpaced_map _ (speed s + 5)).
    + destruct (cleanup_coins_suffix
                  (map (moveCoin (speed s + 5)) (items s))) as (k & ->).
      * now apply (coinsSpaced_map _ (speed s + 5)).
      * apply coinsThirds_skipn.
        now apply (coinsThirds_map _ (speed s + 5)).
Qed.

Lemma coin_inv_update (rnd : Rand) (s : State) :
  gap_inv s -> coin_inv s -> coin_inv (update rnd s).
Proof.
  intros Hg H. apply (coin_inv_beforeCollision rnd s Hg) in H.
  unfold coin_inv in *. destruct H as (Hf & Hs & Ht).
  destruct (update_motion rnd s) as (Ev & Ed & El).
  rewrite Ev, Ed, El, update_items.
  rewrite beforeCollision_speed, beforeCollision_distance in *.
  assert (forall c,
             c_z (if collects (lane (playerPhysics (player s)))
                              (y (playerPhysics (player s))) c
                  then set_active c false else c) = c_z c - 0) as Hz.
  { intros c. destruct (collects _ _ c); cbn [set_active c_z]; lia. }
  repeat apply conj.
  - apply Forall_map. eapply Forall_impl; [|exact Hf]. cbv beta.
    intros c Hc. rewrite Hz. lia.
  - now apply (coinsSpaced_map _ 0).
  - now apply (coinsThirds_map _ 0).
Qed.

Lemma step_coin_inv (e : Event) (w : World) :
  world_inv w /\ coin_inv (st w) ->
  world_inv (step e w) /\ coin_inv (st (step e w)).
Proof.
  intros (Hw & Hc). split; [now apply step_world_inv|].
  destruct Hw as (_ & Hg & _). destruct e; cbn [step].
  - destruct (loop_cases rnd w) as [-> | (_ & _ & ->)]; auto.
    cbn [st]. now apply coin_inv_update.
  - pose proof (handleKeyDown_fields key w) as K. cbv zeta in K.
    destruct K as (_ & _ & _ & Kv & Kd & _ & _ & _ & _ & Ki & Kl & _).
    unfold coin_inv in *. now rewrite Kv, Kd, Ki, Kl.
  - destruct (gameState w); auto.
  - destruct (gameState w); auto.
    unfold coin_inv, coinsSpaced, coinsThirds. cbn [st resetGame].
    unfold initialState. cbn [items].
    repeat split; try constructor. intros [|i] a b H; discriminate H.
Qed.

Lemma reachable_coin_inv (evs : list Event) :
  coin_inv (st (run evs initialWorld)).
Proof.
  apply (run_invariant_all (fun w => world_inv w /\ coin_inv (st w))).
  - apply step_coin_inv.
  - split; [apply initialState_inv|].
    unfold coin_inv, coinsSpaced, coinsThirds, initialWorld, initialState.
    cbn [st items].
    repeat split; try constructor. intros [|i] a b H; discriminate H.
Qed.

Lemma collects_nearCoin (l : Z) (py : num) (c : Coin) :
  collects l py c = true -> num:(50) < c_z c < num:(150).
Proof.
  unfold collects, nearCoin. intros H.
  apply andb_true_iff in H as [H _]. apply andb_true_iff in H as [H _].
  apply andb_true_iff in H as [_ H]. apply andb_true_iff in H as [H1 H2].
  apply Z.ltb_lt in H1. apply Z.ltb_lt in H2. lia.
Qed.

Lemma count_collects_spaced (l : Z) (py : num) (cs : list Coin) :
  coinsSpaced cs -> count (collects l py) cs <= 1.
Proof.
  unfold coinsSpaced. induction 1 as [|a cs Hcs IH Ha].
  - cbv. discriminate.
  - rewrite count_cons. destruct (collects l py a) eqn:Hh; [|lia].
    apply collects_nearCoin in Hh. rewrite count_none; [lia|].
    eapply Forall_impl; [|exact Ha]. cbv beta. intros b Hb.
    destruct (collects l py b) eqn:Hb'; auto.
    apply collects_nearCoin in Hb'. lia.
Qed.

(** X11.  From every world reached from the initial one, a tick collects at
    most one coin: coins are at least 150 apart and the coin band is 100
    deep, so [coins] grows by 0 or by 1 in a tick. *)
Theorem X11_one_coin_per_tick :
  forall (evs : list Event) (rnd : Rand),
    coins (st (run evs initialWorld))
      <= coins (update rnd (st (run evs initialWorld)))
      <= coins (st (run evs initialWorld)) + 1.
Proof.
  intros evs rnd.
  destruct (reachable_world_inv evs) as (_ & Hg & _).
  pose proof (coin_inv_beforeCollision rnd _ Hg (reachable_coin_inv evs))
    as (_ & Hs & _).
  rewrite update_coins.
  pose proof (count_collects_spaced
                (lane (playerPhysics (player (st (run evs initialWorld)))))
                (y (playerPhysics (player (st (run evs initialWorld)))))
                _ Hs).
  pose proof (count_nonneg
                (collects
                   (lane (playerPhysics (player (st (run evs initialWorld)))))
                   (y (playerPhysics (player (st (run evs initialWorld))))))
                (items (beforeCollision rnd (st (run evs initialWorld))))).
  lia.
Qed.

Lemma coins_length (cs : list Coin) :
  coinsSpaced cs -> coinsThirds cs ->
  Forall (fun c => num:(-200) < c_z c <= num:(2288)) cs ->
  (List.length cs <= 10)%nat.
Proof.
  intros Hs Ht Hr.
  destruct (Nat.le_gt_cases (List.length cs) 10) as [H | H]; auto.
  exfalso.
  destruct cs as [|c0 [|c1 [|c2 [|c3 [|c4 [|c5 [|c6 [|c7 [|c8 [|c9 [|c10 cs]]]]]]]]]]];
    cbn [List.length] in H; try lia.
  pose proof (Ht 0%nat c0 c3 eq_refl eq_refl) as H03.
  pose proof (Ht 3%nat c3 c6 eq_refl eq_refl) as H36.
  pose proof (Ht 6%nat c6 c9 eq_refl eq_refl) as H69.
  pose proof (coinsSpaced_nth _ 9 0 c9 c10 Hs eq_refl eq_refl) as H910.
  rewrite Forall_forall in Hr.
  assert (-200000 < c_z c0) by (apply Hr; cbn; auto).
  assert (c_z c10 <= 2288000) by (apply Hr; cbn; auto 20).
  lia.
Qed.

Lemma coinsSpaced_apart (cs : list Coin) :
  coinsSpaced cs -> coinsApart num:(149) cs.
Proof.
  unfold coinsSpaced, coinsApart.
  induction 1 as [|a l Hl IH Ha]; constructor; auto.
  eapply Forall_impl; [|exact Ha]. intros b Hb. cbv beta in *. lia.
Qed.

(** X12.  In every world reached from the initial one the coin pool holds at
    most ten coins, in the order of their depth, each at least 149 behind the
    one before (the coins of one run are spawned 150 apart and move by the
    same speeds) and at least 799 behind the third before, and each at a
    depth above -200 and at most 2288. *)
Theorem X12_coin_pool_bounded :
  forall evs : list Event,
    (List.length (items (st (run evs initialWorld))) <= 10)%nat /\
    coinsApart num:(149) (items (st (run evs initialWorld))) /\
    coinsThirds (items (st (run evs initialWorld))) /\
    Forall (fun c => num:(-200) < c_z c <= num:(2288))
           (items (st (run evs initialWorld))).
Proof.
  intros evs.
  destruct (reachable_world_inv evs) as (_ & (Hv & Hd & _ & _) & _).
  destruct (reachable_pool_inv evs) as (_ & _ & Hlo).
  destruct (reachable_coin_inv evs) as (Hf & Hs & Ht).
  assert (Forall (fun c => -200000 < c_z c <= 2288000)
                 (items (st (run evs initialWorld)))) as Hr.
  { apply Forall_forall. intros c Hin.
    rewrite Forall_forall in Hf, Hlo.
    specialize (Hf c Hin). specialize (Hlo c Hin).
    unfold SPEED_INITIAL in Hv. cbv beta in *. lia. }
  split; [now apply coins_length|].
  split; [now apply coinsSpaced_apart|]. auto.
Qed.

(** * Further properties: coins and obstacles *)

Lemma apart_inv_beforeCollision (rnd : Rand) (s : State) :
  rand_ok rnd = true -> gap_inv s -> apart_inv s ->
  apart_inv (beforeCollision rnd s).
Proof.
  unfold apart_inv, anchored, gap_inv.
  intros Hr (Hv & Hd & Hf & _) Ha.
  pose proof (spawnLane_range rnd Hr) as Hl.
  destruct (coinLane_of_lane _ Hl) as (_ & Hne & _).
  fold (spawnCoinLane rnd) in Hne.
  rewrite beforeCollision_speed, beforeCollision_distance,
    beforeCollision_lastSpawnZ, beforeCollision_items,
    beforeCollision_obstacles, spawnDue_beforeCheck.
  unfold SPEED_INITIAL, SPEED_INCREMENT in *.
  destruct (800000 <? distance s + (speed s + 5) - lastSpawnZ s) eqn:Hdue;
    [apply Z.ltb_lt in Hdue | apply Z.ltb_ge in Hdue; rewrite !app_nil_r].
  - apply Forall_filter, Forall_map, Forall_app. split.
    + eapply Forall_impl; [|exact Ha]. cbv beta.
      intros c (a & Hz & Hb & Ho). exists (a - (speed s + 5)).
      cbn [moveCoin c_z c_lane]. repeat apply conj; try lia.
      apply Forall_filter, Forall_map, Forall_app. split.
      * eapply Forall_impl; [|exact Ho]. cbv beta. intros o H.
        cbn [moveObstacle o_z o_lane]. lia.
      * constructor; [|constructor].
        cbn [moveObstacle o_z o_lane]. right. left. lia.
    + assert (forall k : Z,
                 k = 0 \/ k = 150000 \/ k = 300000 ->
                 exists a : num,
                   (2000000 + k - (speed s + 5) = a \/
                    2000000 + k - (speed s + 5) = a + 150000 \/
                    2000000 + k - (speed s + 5) = a + 300000) /\
                   2400 * (a + (speed s + 5) - 2000000)
                     <= - 2399 * (distance s + (speed s + 5)
                                  - (distance s + (speed s + 5))) /\
                   Forall (fun o => (o_z o = a /\
                                     o_lane o <> spawnCoinLane rnd) \/
                                    a + 799000 <= o_z o \/
                                    o_z o + 799000 <= a)
                     (filter (fun o => -200000 <? o_z o)
                        (map (moveObstacle (speed s + 5))
                           (obstacles s
                            ++ [mkObstacle (spawnLane rnd) 2000000
                                           (spawnType rnd) false]))))
        as Hnew.
      { intros k Hk. exists (2000000 - (speed s + 5)).
        repeat apply conj; try lia.
        apply Forall_filter, Forall_map, Forall_app. split.
        - eapply Forall_impl; [|exact Hf]. cbv beta. intros o H.
          cbn [moveObstacle o_z o_lane]. lia.
        - constructor; [|constructor]. cbn [moveObstacle o_z o_lane].
          left. split; [lia | congruence]. }
      repeat constructor; cbn [moveCoin c_z c_lane].
      * destruct (Hnew 0) as (a & H1 & H2 & H3); [lia|].
        exists a. rewrite Z.add_0_r in H1. auto.
      * destruct (Hnew 150000) as (a & H1 & H2 & H3); [lia|].
        exists a. auto.
      * destruct (Hnew 300000) as (a & H1 & H2 & H3); [lia|].
        exists a. auto.
  - apply Forall_filter, Forall_map.
    eapply Forall_impl; [|exact Ha]. cbv beta.
    intros c (a & Hz & Hb & Ho). exists (a - (speed s + 5)).
    cbn [moveCoin c_z c_lane]. repeat apply conj; try lia.
    apply Forall_filter, Forall_map.
    eapply Forall_impl; [|exact Ho]. cbv beta. intros o H.
    cbn [moveObstacle o_z o_lane]. lia.
Qed.

Lemma apart_inv_update (rnd : Rand) (s : State) :
  rand_ok rnd = true -> gap_inv s -> apart_inv s ->
  apart_inv (update rnd s).
Proof.
  intros Hr Hg H. apply (apart_inv_beforeCollision rnd s Hr Hg) in H.
  unfold apart_inv, anchored in *.
  destruct (update_motion rnd s) as (Ev & Ed & El).
  rewrite Ev, Ed, El, update_items, update_obstacles.
  rewrite beforeCollision_speed, beforeCollision_distance in *.
  apply Forall_map. eapply Forall_impl; [|exact H]. cbv beta.
  intros c (a & Hz & Hb & Ho). exists a.
  assert (forall c' : Coin,
             c_z (if collects (lane (playerPhysics (player s)))
                              (y (playerPhysics (player s))) c'
                  then set_active c' false else c') = c_z c' /\
             c_lane (if collects (lane (playerPhysics (player s)))
                                 (y (playerPhysics (player s))) c'
                     then set_active c' false else c') = c_lane c') as Hc
    by (intros c'; now destruct (collects _ _ c')).
  destruct (Hc c) as (-> & ->). repeat apply conj; auto.
  apply Forall_map. eapply Forall_impl; [|exact Ho]. cbv beta.
  intros o H'. now destruct (hits _ _ o).
Qed.

Lemma step_apart_inv (e : Event) (w : World) :
  event_ok e = true ->
  world_inv w /\ apart_inv (st w) ->
  world_inv (step e w) /\ apart_inv (st (step e w)).
Proof.
  intros He (Hw & Ha). split; [now apply step_world_inv|].
  destruct Hw as (_ & Hg & _). destruct e; cbn [step].
  - destruct (loop_cases rnd w) as [-> | (_ & _ & ->)]; auto.
    cbn [st]. now apply apart_inv_update.
  - pose proof (handleKeyDown_fields key w) as K. cbv zeta in K.
    destruct K as (_ & _ & _ & Kv & Kd & _ & _ & _ & Ko & Ki & Kl & _).
    unfold apart_inv, anchored in *. now rewrite Kv, Kd, Ko, Ki, Kl.
  - destruct (gameState w); auto.
  - destruct (gameState w); auto. constructor.
Qed.

Lemma reachable_apart_inv (evs : list Event) :
  events_ok evs = true -> apart_inv (st (run evs initialWorld)).
Proof.
  intros Hok.
  apply (run_invariant (fun w => world_inv w /\ apart_inv (st w))); auto.
  - apply step_apart_inv.
  - split; [apply initialState_inv | constructor].
Qed.

(** X13.  Coins are never stacked with an obstacle.  In every world reached
    from the initial one through events whose random values lie in [0, 1),
    a coin and an obstacle in the same lane are far apart: the obstacle is
    at least 499 behind the coin or at least 799 in front of it. *)
Theorem X13_coins_clear_of_obstacles :
  forall (evs : list Event) (c : Coin) (o : Obstacle),
    events_ok evs = true ->
    In c (items (st (run evs initialWorld))) ->
    In o (obstacles (st (run evs initialWorld))) ->
    c_lane c = o_lane o ->
    c_z c + num:(499) <= o_z o \/ o_z o + num:(799) <= c_z c.
Proof.
  intros evs c o Hok Hc Ho Hl.
  pose proof (reachable_apart_inv evs Hok) as Ha.
  unfold apart_inv in Ha. rewrite Forall_forall in Ha.
  destruct (Ha c Hc) as (a & Hz & _ & Hf).
  rewrite Forall_forall in Hf. specialize (Hf o Ho).
  destruct Hf as [(_ & Hne) | Hf]; [congruence | lia].
Qed.

Lemma count_pos_exists {A : Type} (f : A -> bool) (l : list A) :
  0 < count f l -> exists a : A, In a l /\ f a = true.
Proof.
  induction l as [|a l IH]; [cbv; discriminate|].
  rewrite count_cons. destruct (f a) eqn:E.
  - intros _. exists a. split; [now left | exact E].
  - intros H. destruct IH as (b & Hb & Hfb); [lia|].
    exists b. split; [now right | exact Hfb].
Qed.

(** X14.  A tick never both penalises and rewards.  From every world reached
    from the initial one through events whose random values lie in [0, 1),
    a tick in which an obstacle hits the player collects no coin, and a tick
    that collects a coin takes nothing off the pursuit meter. *)
Theorem X14_no_crash_and_coin_in_one_tick :
  forall (evs : list Event) (rnd : Rand),
    events_ok evs = true -> rand_ok rnd = true ->
    coins (update rnd (st (run evs initialWorld)))
    = coins (st (run evs initialWorld)) \/
    policeDistance (update rnd (st (run evs initialWorld)))
    = policeDistance (policeRecover (st (run evs initialWorld))).
Proof.
  intros evs rnd Hok Hr. set (s := st (run evs initialWorld)).
  destruct (reachable_world_inv evs) as (_ & Hg & _). fold s in Hg.
  pose proof (apart_inv_beforeCollision rnd s Hr Hg
                (reachable_apart_inv evs Hok)) as Ha.
  rewrite update_coins, update_policeDistance.
  set (l := lane (playerPhysics (player s))).
  set (py := y (playerPhysics (player s))).
  pose proof (count_nonneg (collects l py) (items (beforeCollision rnd s)))
    as Hc0.
  pose proof (count_nonneg (hits l py) (obstacles (beforeCollision rnd s)))
    as Hh0.
  destruct (Z.eq_dec (count (collects l py) (items (beforeCollision rnd s))) 0)
    as [-> | Hc]; [left; lia|].
  destruct (Z.eq_dec (count (hits l py) (obstacles (beforeCollision rnd s))) 0)
    as [-> | Hh]; [right; lia|].
  exfalso.
  destruct (count_pos_exists (collects l py) (items (beforeCollision rnd s)))
    as (c & Hci & Hcc); [lia|].
  destruct (count_pos_exists (hits l py) (obstacles (beforeCollision rnd s)))
    as (o & Hoi & Hoh); [lia|].
  unfold apart_inv in Ha. rewrite Forall_forall in Ha.
  destruct (Ha c Hci) as (a & Hz & _ & Hf).
  rewrite Forall_forall in Hf. specialize (Hf o Hoi).
  pose proof (collects_nearCoin l py c Hcc) as Hcz.
  pose proof (hits_nearPlayer l py o Hoh) as Hoz.
  assert (c_lane c = l) as Hcl.
  { unfold collects in Hcc.
    apply andb_true_iff in Hcc as [Hcc _].
    apply andb_true_iff in Hcc as [_ Hcc]. now apply Z.eqb_eq. }
  assert (o_lane o = l) as Hol.
  { unfold hits in Hoh.
    apply andb_true_iff in Hoh as [Hoh _].
    apply andb_true_iff in Hoh as [_ Hoh]. now apply Z.eqb_eq. }
  destruct Hf as [(_ & Hne) | Hf]; [congruence | lia].
Qed.

(** The last coin of the first run and the second obstacle of [mixedRun],
    both in lane 2, as an instance. *)
Lemma X13_coins_clear_witness :
  c_z (mkCoin 2 num:(1412.145) true num:(7.1)) + num:(499)
    <= o_z (mkObstacle 2 num:(1923.995) barrier false) \/
  o_z (mkObstacle 2 num:(1923.995) barrier false) + num:(799)
    <= c_z (mkCoin 2 num:(1412.145) true num:(7.1)).
Proof.
  apply (X13_coins_clear_of_obstacles mixedRun).
  - vm_compute. reflexivity.
  - vm_compute. right. right. left. reflexivity.
  - vm_compute. right. left. reflexivity.
  - reflexivity.
Defined.

(** The frame of the first crash of the straight run, as an instance. *)
Lemma X14_no_crash_and_coin_witness :
  coins (update middle (st (run (straightRun 203) initialWorld)))
  = coins (st (run (straightRun 203) initialWorld)) \/
  policeDistance (update middle (st (run (straightRun 203) initialWorld)))
  = policeDistance (policeRecover (st (run (straightRun 203) initialWorld))).
Proof.
  apply (X14_no_crash_and_coin_in_one_tick (straightRun 203) middle).
  - vm_compute. reflexivity.
  - reflexivity.
Defined.

(** * Further properties: penalties *)

Lemma count_passed_marked (l : Z) (py : num) (os : list Obstacle) :
  count passed
        (map (fun o => if hits l py o then set_passed o true else o) os)
  = count passed os + count (hits l py) os.
Proof.
  induction os as [|o os IH]; cbn [map]; rewrite ?count_cons.
  - reflexivity.
  - rewrite IH. destruct (hits l py o) eqn:Hh.
    + assert (passed o = false) as Hp
        by (unfold hits in Hh; destruct (passed o); [discriminate | auto]).
      rewrite Hp. cbn [set_passed passed]. lia.
    + destruct (passed o); lia.
Qed.

(** X15.  Penalties and resolved flags go together.  Over the obstacle loop,
    and so over a tick, the pursuit meter falls by exactly 40 for each
    obstacle that turned from unresolved to resolved, and stumbleCooldown
    changes only in a tick that resolves an obstacle. *)
Theorem X15_penalty_per_resolved_obstacle :
  (forall s : State,
      policeDistance (collisionObstacles s)
      = policeDistance s
        - num:(40) * (count passed (obstacles (collisionObstacles s))
                      - count passed (obstacles s))) /\
  (forall (rnd : Rand) (s : State),
      policeDistance (update rnd s)
      = policeDistance (policeRecover s)
        - num:(40) * (count passed (obstacles (update rnd s))
                      - count passed (obstacles (beforeCollision rnd s)))) /\
  (forall (rnd : Rand) (s : State),
      count passed (obstacles (update rnd s))
      = count passed (obstacles (beforeCollision rnd s)) ->
      stumbleCooldown (player (update rnd s)) = stumbleCooldown (player s)).
Proof.
  repeat apply conj.
  - intros s. rewrite collisionObstacles_policeDistance,
      collisionObstacles_obstacles, count_passed_marked. lia.
  - intros rnd s. rewrite update_policeDistance, update_obstacles,
      count_passed_marked. lia.
  - intros rnd s. rewrite update_obstacles, count_passed_marked,
      update_stumbleCooldown. intros H.
    destruct (0 <? _) eqn:E; [apply Z.ltb_lt in E; lia | reflexivity].
Qed.

(** A frame of the straight run without a crash, as an instance. *)
Lemma X15_penalty_witness :
  stumbleCooldown (player (update middle (st (run (straightRun 100) initialWorld))))
  = stumbleCooldown (player (st (run (straightRun 100) initialWorld))).
Proof.
  apply (proj2 (proj2 X15_penalty_per_resolved_obstacle)).
  vm_compute. reflexivity.
Defined.

(** * Further properties: the game-over overlay *)

(** X16.  What the overlay hands to the leaderboard.  From a world reached
    from the initial one, [handleSubmit] sends a request only in the phase
    'gameover' and only for a non-empty name; the request carries that name,
    the final score of the run, floor(distance / 10), and a number of coins
    that is non-negative and at most the coins collected.  The run it
    reports is over, with the meter at or below 0. *)
Theorem X16_submitted_score_is_final :
  forall (evs : list Event) (username : string) (req : ScoreRequest),
    submitFrom (run evs initialWorld) username = Some req ->
    username <> ""%string /\
    req_username req = username /\
    req_score req = floor_div (distance (st (run evs initialWorld))) 10 /\
    0 <= req_coins req <= coins (st (run evs initialWorld)) /\
    gameOver (st (run evs initialWorld)) = true /\
    policeDistance (st (run evs initialWorld)) <= 0.
Proof.
  intros evs username req. unfold submitFrom, handleSubmit.
  destruct (gameState (run evs initialWorld)) eqn:Hg; try discriminate.
  destruct (String.eqb_spec username "") as [He | He]; [discriminate|].
  intros H. injection H as <-. cbn [req_username req_score req_coins].
  destruct (reachable_motion_hud_inv evs)
    as ((n & _ & _ & _ & Hs) & Hh & Hc).
  assert (gameOver (st (run evs initialWorld)) = true) as Ho
    by (now apply (reachable_phase_inv evs)).
  assert (crash_inv (st (run evs initialWorld))) as (_ & _ & Hp).
  { apply (run_invariant_all (fun w => crash_inv (st w))).
    - apply step_crash_inv.
    - unfold crash_inv. cbn. repeat split; auto; discriminate. }
  repeat split; auto; lia.
Qed.

(** The straight run, over after 384 frames, and the name "ace", as an
    instance. *)
Lemma X16_submitted_score_witness :
  req_score (mkScoreRequest "ace" 497 0)
  = floor_div (distance (st (run (straightRun 384) initialWorld))) 10.
Proof.
  apply (X16_submitted_score_is_final (straightRun 384) "ace"
           (mkScoreRequest "ace" 497 0)).
  vm_compute. reflexivity.
Defined.

(** The coins of the request can fall short: [setCoins] runs before the coin
    loop, so a coin collected in the tick that ends the run is in the game
    state and not in the request. *)
Lemma last_tick_coin_not_submitted :
  events_ok lastCoinRun = true /\
  gameState (run lastCoinRun initialWorld) = gameover /\
  coins (st (run lastCoinRun initialWorld)) = 1 /\
  submitFrom (run lastCoinRun initialWorld) "ace"
  = Some (mkScoreRequest "ace" 507 0).
Proof. vm_compute. repeat split; reflexivity. Qed.

(** * Further properties: the leaderboard *)

Lemma rowsFrom_length {Score : Type} (index : nat) (l : list Score) :
  List.length (rowsFrom index l) = List.length l.
Proof.
  revert index. induction l as [|a l IH]; intros index; cbn; auto.
Qed.

Lemma rowsFrom_nth {Score : Type} (index i : nat) (l : list Score) :
  nth_error (rowsFrom index l) i
  = option_map (fun score => (index + i + 1, badgeOf (index + i), score)%nat)
               (nth_error l i).
Proof.
  revert index i. induction l as [|a l IH]; intros index [|i];
    cbn [rowsFrom nth_error option_map]; auto.
  - now rewrite Nat.add_0_r.
  - rewrite IH. now rewrite Nat.add_succ_comm.
Qed.

(** X17.  The loaded leaderboard shows the first five scores it is given, or
    all of them when there are fewer, in the order given; row [i] (from 0)
    shows rank [i + 1], with the gold, silver and bronze boxes on the first
    three rows only; and the "No scores yet" text is shown exactly when there
    is no row. *)
Theorem X17_leaderboard_rows :
  forall (Score : Type) (scores : option (list Score)),
    (List.length (leaderboardRows scores)
     = match scores with
       | None => 0
       | Some l => Nat.min 5 (List.length l)
       end)%nat /\
    (forall (l : list Score) (i : nat),
        scores = Some l ->
        nth_error (leaderboardRows scores) i
        = if (i <? 5)%nat
          then option_map (fun score => (i + 1, badgeOf i, score)%nat)
                          (nth_error l i)
          else None) /\
    (forall i : nat, badgeOf i = plain <-> (3 <= i)%nat) /\
    (noScoresYet scores = true <-> leaderboardRows scores = []).
Proof.
  intros Score scores. split; [|split; [|split]].
  - destruct scores as [l|]; cbn [leaderboardRows]; auto.
    now rewrite rowsFrom_length, length_firstn.
  - intros l i ->. cbn [leaderboardRows].
    rewrite rowsFrom_nth, nth_error_firstn. cbn [Nat.add].
    now destruct (i <? 5)%nat.
  - intros i. destruct i as [|[|[|i]]]; cbn; split; intros H;
      try discriminate; try lia; auto.
  - destruct scores as [[|a l]|];
      cbn [noScoresYet leaderboardRows List.length Nat.eqb firstn rowsFrom];
      split; intros H.
    all: try discriminate H.
    all: reflexivity.
Qed.

(** A board of six scores: the fourth row, as an instance. *)
Lemma X17_leaderboard_rows_witness :
  nth_error (leaderboardRows (Some [5000; 3500; 2000; 500; 400; 300])) 3
  = if (3 <? 5)%nat
    then option_map (fun score => (3 + 1, badgeOf 3, score)%nat)
                    (nth_error [5000; 3500; 2000; 500; 400; 300] 3)
    else None.
Proof.
  apply (proj1 (proj2 (X17_leaderboard_rows Z
                         (Some [5000; 3500; 2000; 500; 400; 300])))).
  reflexivity.
Defined.

(** * Further properties: what is drawn *)

Lemma Qlt_bool_iff (a b : Q) : Qlt_bool a b = true <-> (a < b)%Q.
Proof.
  unfold Qlt_bool. rewrite negb_true_iff. split.
  - intros H. apply Qnot_le_lt. intros Hle.
    apply Qle_bool_iff in Hle. congruence.
  - intros H. destruct (Qle_bool b a) eqn:E; auto.
    apply Qle_bool_iff in E. now apply Qlt_not_le in H.
Qed.

Lemma to_Q_lt (x : num) (k : Z) :
  x < 1000 * k <-> (to_Q x < inject_Z k)%Q.
Proof.
  unfold to_Q, Qdiv, Qlt, Qmult, Qinv, inject_Z. cbn [Qnum Qden].
  change (Z.pos (1 * 1000)) with 1000. lia.
Qed.

Lemma to_Q_gt (x : num) (k : Z) :
  1000 * k < x <-> (inject_Z k < to_Q x)%Q.
Proof.
  unfold to_Q, Qdiv, Qlt, Qmult, Qinv, inject_Z. cbn [Qnum Qden].
  change (Z.pos (1 * 1000)) with 1000. lia.
Qed.

(** In front of depth -300 the factor is positive, and it exceeds 2 exactly
    below depth -150. *)
Lemma culled_iff (z : num) :
  num:(-300) < z -> (culled z = true <-> z < num:(-150)).
Proof.
  intros Hz. unfold culled, drawScale.
  apply (to_Q_gt z (-300)) in Hz. unfold inject_Z in Hz.
  assert (0 < 300 + to_Q z)%Q as Hd by lra.
  rewrite orb_true_iff, !Qlt_bool_iff, (to_Q_lt z (-150)).
  unfold inject_Z. split.
  - intros [H | H].
    + exfalso. apply (Qlt_not_le _ _ H).
      apply Qle_shift_div_l; auto. lra.
    + destruct (Qlt_le_dec (to_Q z) (-150 # 1)) as [Hlt | Hge]; auto.
      exfalso. apply (Qlt_not_le _ _ H).
      apply Qle_shift_div_r; auto. lra.
  - intros Hlt. right. apply Qlt_shift_div_l; auto. lra.
Qed.

(** X18.  What the draw loop shows of the pools.  In every world reached
    from the initial one no pool entry is skipped as behind the camera; an
    obstacle is drawn exactly when its depth is at least -150, and a coin
    exactly when it is active and its depth is at least -150.  So an entry
    leaves the screen 50 units of depth before cleanup removes it, and a
    collected coin disappears at once. *)
Theorem X18_drawn_iff_in_front :
  forall evs : list Event,
    (forall o : Obstacle,
        In o (obstacles (st (run evs initialWorld))) ->
        Qlt_bool (drawScale (o_z o)) 0 = false /\
        (obstacleDrawn o = true <-> num:(-150) <= o_z o)) /\
    (forall c : Coin,
        In c (items (st (run evs initialWorld))) ->
        Qlt_bool (drawScale (c_z c)) 0 = false /\
        (coinDrawn c = true <-> active c = true /\ num:(-150) <= c_z c)).
Proof.
  intros evs. destruct (reachable_pool_inv evs) as (_ & Ho & Hc).
  rewrite Forall_forall in Ho, Hc.
  assert (forall z : num,
             -200000 < z ->
             Qlt_bool (drawScale z) 0 = false /\
             (negb (culled z) = true <-> -150000 <= z)) as Hz.
  { intros z H. assert (-300000 < z) as H3 by lia.
    pose proof (culled_iff z H3) as Hi. split.
    - destruct (Qlt_bool (drawScale z) 0) eqn:E; auto.
      apply Qlt_bool_iff in E. exfalso. unfold drawScale in E.
      apply (to_Q_gt z (-300)) in H3. unfold inject_Z in H3.
      apply (Qlt_not_le _ _ E). apply Qle_shift_div_l; lra.
    - rewrite negb_true_iff. destruct (culled z).
      + split; [discriminate|]. intros H'.
        assert (z < -150000) by (now apply Hi). lia.
      + split; [|reflexivity]. intros _.
        destruct (Z_lt_ge_dec z (-150000)) as [Hlt | Hge]; [|lia].
        apply Hi in Hlt. discriminate. }
  split.
  - intros o Hin. apply Hz. now apply Ho.
  - intros c Hin. destruct (Hz (c_z c) (Hc c Hin)) as (H1 & H2).
    split; auto. unfold coinDrawn. rewrite andb_true_iff, H2. tauto.
Qed.

(** The first obstacle of [jumpRun] 23 frames later, at depth -49.53 and
    still drawn, as an instance. *)
Lemma X18_drawn_witness :
  obstacleDrawn (mkObstacle 1 num:(-49.53) barrier false) = true <->
  num:(-150) <= o_z (mkObstacle 1 num:(-49.53) barrier false).
Proof.
  apply (X18_drawn_iff_in_front (jumpRun ++ repeat (Frame middle) 23)).
  vm_compute. left. reflexivity.
Defined.

(** * Further properties: what keys and random values cannot do *)

(** X19.  Keys only steer.  A key event never changes the phase, the score
    or coins on screen, the speed, the distance, the score, the coins, the
    pursuit meter, the pools, the last spawn, the gameOver flag,
    stumbleCooldown or the height of the player; outside the phase 'playing'
    it changes nothing at all, and neither does a key that is not one of
    ArrowLeft, a, ArrowRight, d, ArrowUp, w and the space bar. *)
Theorem X19_keys_only_steer :
  forall (key : string) (w : World),
    (gameState (handleKeyDown key w) = gameState w /\
     hudScore (handleKeyDown key w) = hudScore w /\
     hudCoins (handleKeyDown key w) = hudCoins w /\
     speed (st (handleKeyDown key w)) = speed (st w) /\
     distance (st (handleKeyDown key w)) = distance (st w) /\
     score (st (handleKeyDown key w)) = score (st w) /\
     coins (st (handleKeyDown key w)) = coins (st w) /\
     policeDistance (st (handleKeyDown key w)) = policeDistance (st w) /\
     obstacles (st (handleKeyDown key w)) = obstacles (st w) /\
     items (st (handleKeyDown key w)) = items (st w) /\
     lastSpawnZ (st (handleKeyDown key w)) = lastSpawnZ (st w) /\
     gameOver (st (handleKeyDown key w)) = gameOver (st w) /\
     stumbleCooldown (player (st (handleKeyDown key w)))
     = stumbleCooldown (player (st w)) /\
     y (player (st (handleKeyDown key w))) = y (player (st w))) /\
    (gameState w <> playing -> handleKeyDown key w = w) /\
    (key_in key ["ArrowLeft"; "a"; "ArrowRight"; "d"; "ArrowUp"; "w"; " "]%string
     = false ->
     handleKeyDown key w = w).
Proof.
  intros key w. split; [apply (handleKeyDown_fields key w)|]. split.
  - intros H. unfold handleKeyDown. destruct (gameState w); congruence.
  - unfold key_in. cbn [existsb]. intros H.
    repeat (apply orb_false_iff in H as [?E H]).
    unfold handleKeyDown, key_in. cbn [existsb].
    rewrite E, E0, E1, E2, E3, E4, E5. cbn [orb].
    now destruct (gameState w).
Qed.

(** The key "x" during the straight run, as an instance. *)
Lemma X19_keys_only_steer_witness :
  handleKeyDown "x" (run (straightRun 5) initialWorld)
  = run (straightRun 5) initialWorld.
Proof.
  exact (proj2 (proj2 (X19_keys_only_steer "x"
                         (run (straightRun 5) initialWorld))) eq_refl).
Defined.


(** * Further properties: what the random values decide *)

Lemma count_app {A : Type} (f : A -> bool) (l1 l2 : list A) :
  count f (l1 ++ l2) = count f l1 + count f l2.
Proof.
  unfold count. rewrite filter_app, length_app. lia.
Qed.

Lemma hits_far (l : Z) (py : num) (o : Obstacle) :
  num:(250) <= o_z o -> hits l py o = false.
Proof.
  intros H. destruct (hits l py o) eqn:E; [|reflexivity].
  apply hits_nearPlayer in E. lia.
Qed.

Lemma collects_far (l : Z) (py : num) (c : Coin) :
  num:(150) <= c_z c -> collects l py c = false.
Proof.
  intros H. destruct (collects l py c) eqn:E; [|reflexivity].
  apply collects_nearCoin in E. lia.
Qed.

Lemma beforeCollision_obstacles_split (rnd : Rand) (s : State) :
  speed s + SPEED_INCREMENT <= num:(1750) ->
  obstacles (beforeCollision rnd s)
  = filter (fun o => num:(-200) <? o_z o)
      (map (moveObstacle (speed s + SPEED_INCREMENT)) (obstacles s))
    ++ spawnedObstacles rnd s.
Proof.
  intros H. rewrite beforeCollision_obstacles, map_app, filter_app.
  f_equal. unfold spawnedObstacles.
  destruct (spawnDue (policeCheck (beforeCheck s))); [|reflexivity].
  cbn [map filter moveObstacle o_lane o_z o_type passed].
  destruct (_ <? _) eqn:E; [reflexivity|]. apply Z.ltb_ge in E. lia.
Qed.

Lemma beforeCollision_items_split (rnd : Rand) (s : State) :
  speed s + SPEED_INCREMENT <= num:(1750) ->
  items (beforeCollision rnd s)
  = filter (fun i => num:(-200) <? c_z i)
      (map (moveCoin (speed s + SPEED_INCREMENT)) (items s))
    ++ spawnedCoins rnd s.
Proof.
  intros H. rewrite beforeCollision_items, map_app, filter_app.
  f_equal. unfold spawnedCoins.
  destruct (spawnDue (policeCheck (beforeCheck s))); [|reflexivity].
  cbn [map]. unfold moveCoin. cbn [c_lane c_z active angle filter].
  rewrite !(proj2 (Z.ltb_lt _ _)) by lia. reflexivity.
Qed.

Lemma spawnedObstacles_far (rnd : Rand) (s : State) :
  speed s + SPEED_INCREMENT <= num:(1750) ->
  Forall (fun o => num:(250) <= o_z o /\ passed o = false)
         (spawnedObstacles rnd s).
Proof.
  intros H. unfold spawnedObstacles.
  destruct (spawnDue _); repeat constructor. cbn [o_z]. lia.
Qed.

Lemma spawnedCoins_far (rnd : Rand) (s : State) :
  speed s + SPEED_INCREMENT <= num:(1750) ->
  Forall (fun c => num:(150) <= c_z c) (spawnedCoins rnd s).
Proof.
  intros H. unfold spawnedCoins.
  destruct (spawnDue _); repeat constructor; cbn [c_z]; lia.
Qed.

Lemma spawned_depths (rnd1 rnd2 : Rand) (s : State) :
  map o_z (spawnedObstacles rnd1 s) = map o_z (spawnedObstacles rnd2 s) /\
  map passed (spawnedObstacles rnd1 s)
  = map passed (spawnedObstacles rnd2 s) /\
  map c_z (spawnedCoins rnd1 s) = map c_z (spawnedCoins rnd2 s) /\
  map active (spawnedCoins rnd1 s) = map active (spawnedCoins rnd2 s) /\
  map angle (spawnedCoins rnd1 s) = map angle (spawnedCoins rnd2 s).
Proof.
  unfold spawnedObstacles, spawnedCoins.
  destruct (spawnDue _); repeat split; reflexivity.
Qed.

Lemma map_unhit (l : Z) (py : num) (os : list Obstacle) :
  Forall (fun o => num:(250) <= o_z o /\ passed o = false) os ->
  map (fun o => if hits l py o then set_passed o true else o) os = os.
Proof.
  induction 1 as [|o os (Ho & _) _ IH]; [reflexivity|].
  cbn [map]. now rewrite IH, (hits_far l py o Ho).
Qed.

Lemma map_uncollected (l : Z) (py : num) (cs : list Coin) :
  Forall (fun c => num:(150) <= c_z c) cs ->
  map (fun c => if collects l py c then set_active c false else c) cs = cs.
Proof.
  induction 1 as [|c cs Hc _ IH]; [reflexivity|].
  cbn [map]. now rewrite IH, (collects_far l py c Hc).
Qed.

(** X20.  The two random values a frame draws for the spawner decide only
    the lane and the type of the obstacle that is spawned and the lane of
    its coins.  In a tick whose speed, after its increase, is at most 1750,
    what is spawned at depth 2000 ends the tick at depth 250 or beyond,
    outside both collision bands; so any two pairs of random values give the
    same speed, distance, score, coins, player, pursuit meter, last spawn
    and gameOver flag, and pools with the same depths, resolved flags,
    active flags and angles. *)
Theorem X20_random_only_places_spawns :
  forall (s : State) (rnd1 rnd2 : Rand),
    speed s + SPEED_INCREMENT <= num:(1750) ->
    speed (update rnd1 s) = speed (update rnd2 s) /\
    distance (update rnd1 s) = distance (update rnd2 s) /\
    score (update rnd1 s) = score (update rnd2 s) /\
    coins (update rnd1 s) = coins (update rnd2 s) /\
    player (update rnd1 s) = player (update rnd2 s) /\
    policeDistance (update rnd1 s) = policeDistance (update rnd2 s) /\
    lastSpawnZ (update rnd1 s) = lastSpawnZ (update rnd2 s) /\
    gameOver (update rnd1 s) = gameOver (update rnd2 s) /\
    map o_z (obstacles (update rnd1 s)) = map o_z (obstacles (update rnd2 s)) /\
    map passed (obstacles (update rnd1 s))
    = map passed (obstacles (update rnd2 s)) /\
    map c_z (items (update rnd1 s)) = map c_z (items (update rnd2 s)) /\
    map active (items (update rnd1 s)) = map active (items (update rnd2 s)) /\
    map angle (items (update rnd1 s)) = map angle (items (update rnd2 s)).
Proof.
  intros s rnd1 rnd2 H.
  assert (forall rnd,
             count (hits (lane (playerPhysics (player s)))
                         (y (playerPhysics (player s))))
                   (obstacles (beforeCollision rnd s))
             = count (hits (lane (playerPhysics (player s)))
                           (y (playerPhysics (player s))))
                     (filter (fun o => num:(-200) <? o_z o)
                        (map (moveObstacle (speed s + SPEED_INCREMENT))
                             (obstacles s)))) as Hh.
  { intros rnd. rewrite (beforeCollision_obstacles_split rnd s H), count_app.
    rewrite (count_none _ (spawnedObstacles rnd s)); [lia|].
    eapply Forall_impl; [|exact (spawnedObstacles_far rnd s H)].
    intros o (Ho & _). now apply hits_far. }
  assert (forall rnd,
             count (collects (lane (playerPhysics (player s)))
                             (y (playerPhysics (player s))))
                   (items (beforeCollision rnd s))
             = count (collects (lane (playerPhysics (player s)))
                               (y (playerPhysics (player s))))
                     (filter (fun i => num:(-200) <? c_z i)
                        (map (moveCoin (speed s + SPEED_INCREMENT))
                             (items s)))) as Hc.
  { intros rnd. rewrite (beforeCollision_items_split rnd s H), count_app.
    rewrite (count_none _ (spawnedCoins rnd s)); [lia|].
    eapply Forall_impl; [|exact (spawnedCoins_far rnd s H)].
    intros c Hz. now apply collects_far. }
  assert (forall rnd,
             obstacles (update rnd s)
             = map (fun o => if hits (lane (playerPhysics (player s)))
                                     (y (playerPhysics (player s))) o
                             then set_passed o true else o)
                   (filter (fun o => num:(-200) <? o_z o)
                      (map (moveObstacle (speed s + SPEED_INCREMENT))
                           (obstacles s)))
               ++ spawnedObstacles rnd s) as Ho.
  { intros rnd.
    rewrite update_obstacles, (beforeCollision_obstacles_split rnd s H).
    rewrite map_app. f_equal.
    exact (map_unhit _ _ _ (spawnedObstacles_far rnd s H)). }
  assert (forall rnd,
             items (update rnd s)
             = map (fun c => if collects (lane (playerPhysics (player s)))
                                         (y (playerPhysics (player s))) c
                             then set_active c false else c)
                   (filter (fun i => num:(-200) <? c_z i)
                      (map (moveCoin (speed s + SPEED_INCREMENT))
                           (items s)))
               ++ spawnedCoins rnd s) as Hi.
  { intros rnd.
    rewrite update_items, (beforeCollision_items_split rnd s H).
    rewrite map_app. f_equal.
    exact (map_uncollected _ _ _ (spawnedCoins_far rnd s H)). }
  destruct (spawned_depths rnd1 rnd2 s) as (S1 & S2 & S3 & S4 & S5).
  destruct (update_motion rnd1 s) as (V1 & D1 & L1).
  destruct (update_motion rnd2 s) as (V2 & D2 & L2).
  split; [congruence|]. split; [congruence|].
  split; [now rewrite !update_score|].
  split; [now rewrite !update_coins, !Hc|].
  split; [rewrite !update_player; cbv zeta; now rewrite !Hh|].
  split; [now rewrite !update_policeDistance, !Hh|].
  split; [now rewrite L1, L2, !beforeCollision_lastSpawnZ|].
  split; [now rewrite !update_gameOver|].
  rewrite !Ho, !Hi, !map_app, S1, S2, S3, S4, S5. auto.
Qed.

(** The tick of the straight run that spawns the first obstacle, with two
    different pairs of random values, as an instance. *)
Lemma X20_random_only_places_spawns_witness :
  let s := st (run (straightRun 65) initialWorld) in
  spawnLane middle <> spawnLane (mkRand num:(0.9) num:(0.9)) /\
  policeDistance (update middle s)
  = policeDistance (update (mkRand num:(0.9) num:(0.9)) s) /\
  map o_z (obstacles (update middle s))
  = map o_z (obstacles (update (mkRand num:(0.9) num:(0.9)) s)).
Proof.
  cbv zeta.
  assert (speed (st (run (straightRun 65) initialWorld)) + SPEED_INCREMENT
          <= num:(1750)) as H by (vm_compute; discriminate).
  destruct (X20_random_only_places_spawns
              (st (run (straightRun 65) initialWorld))
              middle (mkRand num:(0.9) num:(0.9)) H)
    as (_ & _ & _ & _ & _ & Hp & _ & _ & Ho & _).
  split; [vm_compute; discriminate|]. split; [exact Hp | exact Ho].
Defined.
